(** * spf.config: plugin discovery, option-string parsing and registration

    A shallow embedding of [spf/config.py].  The Python functions are
    translated one by one and keep their names.

    Conventions of the embedding:
    - Python [str] is Rocq's [string]; the text handled here (plugin names,
      dotted module paths, option strings) is taken to be ASCII, so
      [str.casefold] is ASCII lower-casing and the white space stripped by
      [int]/[float] is the C-locale white space CPython uses for ASCII text.
    - Python dictionaries are stdpp [gmap]s, tuples and lists are [list]s.
    - A Python [float] is an IEEE-754 binary64 value, [spec_float], and
      [float(s)] rounds the decimal text to the nearest one, ties to even.
    - Exceptions are values of type [exn]; a computation that can raise
      returns a [result].  The framework object [spf] is threaded as an
      explicit state, and the process environment (entry points, importable
      modules, attributes, the host's [register_plugin]) is a parameter.
    - A call that forwards [**kwargs] to a function with named parameters
      is checked as Python checks it ([bind_keywords]).

    [load_config_file] and [_find_config_file] take the file system and
    the [ConfigParser] that reads the [plugins] section as parameters. *)

From stdpp Require Import base option list gmap strings.
From Stdlib Require Import ZArith Ascii String Lia.
From Stdlib Require Import Floats.SpecFloat.

Local Open Scope Z_scope.

(** ** Python values *)

Module Py.

(** The objects the loader handles: the scalars an option string can denote,
    module objects (identified by their dotted name) and any other object
    (identified by a label, with the truth value Python's [bool()] gives it). *)
Inductive value : Type :=
  | VNone
  | VBool (b : bool)
  | VInt (i : Z)
  | VFloat (f : spec_float)
  | VStr (s : string)
  | VModule (name : string)
  | VObject (label : string) (truth : bool).

Definition sf_is_zero (f : spec_float) : bool :=
  match f with S754_zero _ => true | _ => false end.

(** [bool(v)], the test of an [if v:] statement. *)
Definition truthy (v : value) : bool :=
  match v with
  | VNone => false
  | VBool b => b
  | VInt i => negb (Z.eqb i 0)
  | VFloat f => negb (sf_is_zero f)
  | VStr s => negb (String.eqb s "")
  | VModule _ => true
  | VObject _ t => t
  end.

(** Exceptions, by class.  [ImportError] stands for the class and its
    subclasses (what [except ImportError] catches), likewise
    [AttributeError]; [OtherError] is an exception of any other class. *)
Inductive exn : Type :=
  | ImportError (msg : string)
  | AttributeError (msg : string)
  | RuntimeError (msg : string)
  | TypeError (msg : string)
  | OtherError (cls msg : string).

Inductive result (A : Type) : Type :=
  | Return (a : A)
  | Raise (e : exn).
Arguments Return {A} a.
Arguments Raise {A} e.

End Py.
Export Py.

(** ** Text operations *)

Module Text.

(** [c in s] for a one-character [c]. *)
Fixpoint str_contains (c : ascii) (s : string) : bool :=
  match s with
  | EmptyString => false
  | String d s' => if Ascii.eqb d c then true else str_contains c s'
  end.

(** The text before the first [sep] and the list of the later pieces. *)
Fixpoint split_pieces (sep : ascii) (s : string) : string * list string :=
  match s with
  | EmptyString => (EmptyString, [])
  | String d s' =>
      let '(h, t) := split_pieces sep s' in
      if Ascii.eqb d sep then (EmptyString, h :: t) else (String d h, t)
  end.

(** [s.split(sep)]: never empty, the empty text gives one empty piece. *)
Definition str_split (sep : ascii) (s : string) : list string :=
  let '(h, t) := split_pieces sep s in h :: t.

(** The text before and after the first [sep], when there is one. *)
Fixpoint str_partition (sep : ascii) (s : string) : option (string * string) :=
  match s with
  | EmptyString => None
  | String d s' =>
      if Ascii.eqb d sep then Some (EmptyString, s')
      else match str_partition sep s' with
           | Some (a, b) => Some (String d a, b)
           | None => None
           end
  end.

(** [s.split(sep, maxsplit)]. *)
Fixpoint str_split_max (sep : ascii) (maxsplit : nat) (s : string) : list string :=
  match maxsplit with
  | O => [s]
  | S n =>
      match str_partition sep s with
      | Some (a, b) => a :: str_split_max sep n b
      | None => [s]
      end
  end.

Definition lower_char (c : ascii) : ascii :=
  let n := nat_of_ascii c in
  if ((65 <=? n) && (n <=? 90))%nat then ascii_of_nat (n + 32) else c.

(** [s.casefold()] on ASCII text. *)
Fixpoint casefold (s : string) : string :=
  match s with
  | EmptyString => EmptyString
  | String c s' => String (lower_char c) (casefold s')
  end.

End Text.
Export Text.

(** ** The built-in conversions [int(s)] and [float(s)]

    Both strip white space at the two ends, take an optional sign and
    allow one underscore between two digits.  [int] refuses a text of
    more than [int_max_str_digits] digits, the default of the interpreter;
    [float] has no such bound. *)

Module Numbers.

(** White space of ASCII text: tab, line feed, vertical tab, form feed,
    carriage return and space. *)
Definition is_space (c : ascii) : bool :=
  let n := nat_of_ascii c in
  (((9 <=? n) && (n <=? 13)) || (n =? 32))%nat.

Definition is_digit (c : ascii) : bool :=
  let n := nat_of_ascii c in
  ((48 <=? n) && (n <=? 57))%nat.

Definition digit_value (c : ascii) : Z := Z.of_nat (nat_of_ascii c) - 48.

Fixpoint lstrip (cs : list ascii) : list ascii :=
  match cs with
  | c :: r => if is_space c then lstrip r else cs
  | [] => []
  end.

Definition strip (cs : list ascii) : list ascii :=
  rev (lstrip (rev (lstrip cs))).

(** Digit grouping: an underscore is accepted only between two digits, and
    is then ignored.  [prev] is the character before [cs]. *)
Fixpoint drop_underscores (prev : option ascii) (cs : list ascii)
  : option (list ascii) :=
  match cs with
  | [] => Some []
  | c :: r =>
      if Ascii.eqb c "_" then
        match prev, r with
        | Some p, n :: _ =>
            if is_digit p && is_digit n then drop_underscores (Some c) r
            else None
        | _, _ => None
        end
      else
        match drop_underscores (Some c) r with
        | Some r' => Some (c :: r')
        | None => None
        end
  end.

(** The leading run of digits, and what follows it. *)
Fixpoint span_digits (cs : list ascii) : list ascii * list ascii :=
  match cs with
  | c :: r =>
      if is_digit c then let '(ds, rest) := span_digits r in (c :: ds, rest)
      else ([], cs)
  | [] => ([], [])
  end.

Definition digits_value (ds : list ascii) : Z :=
  fold_left (fun acc c => 10 * acc + digit_value c) ds 0.

(** An optional sign: [true] for minus. *)
Definition take_sign (cs : list ascii) : bool * list ascii :=
  match cs with
  | c :: r =>
      if Ascii.eqb c "-" then (true, r)
      else if Ascii.eqb c "+" then (false, r)
      else (false, cs)
  | [] => (false, [])
  end.

(** [sys.get_int_max_str_digits()] as the interpreter starts: the digits
    of a text are counted without sign, white space and underscores, and
    leading zeros count. *)
Definition int_max_str_digits : Z := 4300.

(** [int(s)] in base ten; [None] is [ValueError]. *)
Definition py_int (s : string) : option Z :=
  let '(neg, body) := take_sign (strip (list_ascii_of_string s)) in
  match drop_underscores None body with
  | Some body' =>
      match span_digits body' with
      | ((_ :: _) as ds, []) =>
          if int_max_str_digits <? Z.of_nat (List.length ds) then None
          else Some (if neg then - digits_value ds else digits_value ds)
      | _ => None
      end
  | None => None
  end.

Definition Z_to_pos (z : Z) : positive :=
  match z with Zpos p => p | _ => xH end.

(** The binary64 nearest to [m * 10 ^ e] ([m] not negative), ties to even;
    out of range gives an infinity, as [float] does.  For a negative [e] the
    quotient is taken with 57 bits or more and a sticky last bit. *)
Definition float_of_decimal (neg : bool) (m e : Z) : spec_float :=
  if m =? 0 then S754_zero neg
  else if 0 <=? e then binary_round 53 1024 neg (Z_to_pos (m * 10 ^ e)) 0
  else
    let q := 10 ^ (- e) in
    let k := Z.max 0 (Z.log2 q + 57 - Z.log2 m) in
    let num := m * 2 ^ k in
    let sticky := if num mod q =? 0 then 0 else 1 in
    binary_round 53 1024 neg (Z_to_pos (2 * (num / q) + sticky)) (- (k + 1)).

Definition lower_chars (cs : list ascii) : string :=
  casefold (string_of_list_ascii cs).

(** The exponent part of a float literal: none, or [e]/[E], an optional
    sign and at least one digit.  Gives the exponent and what follows it. *)
Definition take_exponent (cs : list ascii) : Z * list ascii :=
  match cs with
  | c :: r =>
      if Ascii.eqb c "e" || Ascii.eqb c "E" then
        let '(eneg, r1) := take_sign r in
        match span_digits r1 with
        | ((_ :: _) as ds, rest) =>
            ((if eneg then - digits_value ds else digits_value ds), rest)
        | ([], _) => (0, cs)
        end
      else (0, cs)
  | [] => (0, [])
  end.

(** [float(s)]; [None] is [ValueError]. *)
Definition py_float (s : string) : option spec_float :=
  match drop_underscores None (strip (list_ascii_of_string s)) with
  | None => None
  | Some cs =>
      let '(neg, body) := take_sign cs in
      let '(ip, r1) := span_digits body in
      let '(fp, r2) :=
        match r1 with
        | c :: r => if Ascii.eqb c "." then span_digits r else ([], r1)
        | [] => ([], [])
        end in
      match ip ++ fp with
      | [] =>
          let w := lower_chars body in
          if String.eqb w "inf" || String.eqb w "infinity"
          then Some (S754_infinity neg)
          else if String.eqb w "nan" then Some S754_nan
          else None
      | ds =>
          match take_exponent r2 with
          | (ex, []) =>
              Some (float_of_decimal neg (digits_value ds)
                      (ex - Z.of_nat (List.length fp)))
          | (_, _ :: _) => None
          end
      end
  end.

End Numbers.
Export Numbers.


(** ** Option strings: [_transform_option_dict] *)

Module Options.

(** A part of an option string: [kwkey] (or [None]) and the text [val]. *)
Definition split_key (part : string) : option string * string :=
  if str_contains "=" part then
    match str_split_max "=" 1 part with
    | kwkey :: val :: _ => (Some kwkey, val)
    | _ => (None, part)
    end
  else (None, part).

(** The [if val == "True": ... elif ... else: ...] chain. *)
Definition coerce (val : string) : value :=
  if String.eqb val "True" then VBool true
  else if String.eqb val "False" then VBool false
  else if String.eqb val "None" then VNone
  else if str_contains "." val then
    match py_float val with
    | Some f => VFloat f
    | None => VStr val
    end
  else
    match py_int val with
    | Some i => VInt i
    | None => VStr val
    end.

(** [if kwkey:] holds for a key that is present and not empty. *)
Definition key_given (kwkey : option string) : option string :=
  match kwkey with
  | Some k => if String.eqb k "" then None else Some k
  | None => None
  end.

(** One turn of the loop over the parts. *)
Definition option_step (acc : list value * gmap string value) (part : string)
  : list value * gmap string value :=
  let '(args, kwargs) := acc in
  let '(kwkey, val) := split_key part in
  let val := coerce val in
  match key_given kwkey with
  | Some k => (args, <[k := val]> kwargs)
  | None => (args ++ [val], kwargs)
  end.

Definition _transform_option_dict (options : string)
  : list value * gmap string value :=
  let parts := str_split "," options in
  fold_left option_step parts ([], ∅).

(** What a part contributes: its key when one is given, and its scalar. *)
Definition part_entry (part : string) : option string * value :=
  let '(kwkey, val) := split_key part in (key_given kwkey, coerce val).

(** The scalars of the parts without a key, in order. *)
Definition positional_values (parts : list string) : list value :=
  omap (fun part => match part_entry part with
                    | (None, v) => Some v
                    | (Some _, _) => None
                    end) parts.

(** The keyed scalars, in order. *)
Definition named_values (parts : list string) : list (string * value) :=
  omap (fun part => match part_entry part with
                    | (Some k, v) => Some (k, v)
                    | (None, _) => None
                    end) parts.

(** The binary64 value 5 * 2^-1, that is 2.5. *)
Definition float_2_5 : spec_float := binary_round 53 1024 false 5 (-1).

End Options.
Export Options.


(** ** Discovery and registration *)

Module Loader.

(** An entry point of the group [sanic_plugins]. *)
Record entrypoint : Type := EntryPoint {
  ep_name : string;
  module_name : string;
  attrs : list string
}.

(** The dictionary [p_dict] built for a discovered plugin; the key
    ['instance'] may be missing. *)
Record p_dict : Type := PDict {
  pd_name : string;
  pd_module : value;
  pd_instance : option value
}.

(** The registration record ([reg]) of the pair the framework returns. *)
Record registration : Type := Registration {
  plugin_name : string;
  reg_info : value
}.

Definition assoc : Type := value * registration.

(** What the framework object was asked to do, in order; a call of
    [register_plugin] is kept with its outcome. *)
Inductive event : Type :=
  | LogInfo (msg : string)
  | LogError (msg : string)
  | CallRegister (p : value) (args : list value) (kwargs : gmap string value)
             (outcome : result assoc).

(** Calling [f(a, b, c, *args, **kwargs)] where [f] names its first
    parameters [params]: a keyword that repeats one of them is a
    [TypeError], raised before the body of [f] runs.  (The message names
    one repeated parameter; with several Python picks by keyword order.) *)
Definition bind_keywords (fname : string) (params : list string)
    (kwargs : gmap string value) : option exn :=
  match List.filter (fun p => bool_decide (is_Some (kwargs !! p))) params with
  | p :: _ =>
      Some (TypeError
              (fname +:+ "() got multiple values for argument '" +:+ p +:+ "'"))
  | [] => None
  end.

(** [if attr:] on [attr = entrypoint.attrs[0]], or [None] without attrs. *)
Definition attr_given (ep : entrypoint) : option string :=
  match attrs ep with
  | a :: _ => if String.eqb a "" then None else Some a
  | [] => None
  end.

(** [plugins[name] = p_dict; plugins[str(name).casefold()] = p_dict]. *)
Definition add_plugin (d : p_dict) (plugins : gmap string p_dict)
  : gmap string p_dict :=
  <[casefold (pd_name d) := d]> (<[pd_name d := d]> plugins).

(** The object [p] that [_register_advertised_plugin] registers. *)
Definition plugin_object (plugin_def : p_dict) : value :=
  match pd_instance plugin_def with
  | Some inst => if truthy inst then inst else pd_module plugin_def
  | None => pd_module plugin_def
  end.

(** [if options:] fails for a missing value and for the empty text. *)
Definition entry_arguments (options : option string)
  : list value * gmap string value :=
  match options with
  | Some o => if String.eqb o "" then ([], ∅) else _transform_option_dict o
  | None => ([], ∅)
  end.

Section Framework.

(** The state of the host application behind the framework object. *)
Context {Host : Type}.

(** [pkg_resources.iter_entry_points('sanic_plugins')]. *)
Variable iter_entry_points : list entrypoint.
(** [importlib.import_module] and the built-in [getattr]. *)
Variable import_module : string -> result value.
Variable getattr : value -> string -> result value.
(** The method [spf.register_plugin] of the host. *)
Variable register_plugin :
  value -> list value -> gmap string value -> Host -> result assoc * Host.

(** The framework object [spf]: the host behind it and the journal of the
    calls made on it. *)
Record spf : Type := Spf {
  host : Host;
  journal : list event
}.

(** Computations on [spf] that may raise. *)
Definition M (A : Type) : Type := spf -> result A * spf.

Definition ret {A} (a : A) : M A := fun s => (Return a, s).
Definition raise {A} (e : exn) : M A := fun s => (Raise e, s).
Definition bind {A B} (c : M A) (k : A -> M B) : M B :=
  fun s => match c s with
           | (Return a, s') => k a s'
           | (Raise e, s') => (Raise e, s')
           end.

Notation "'do' x <- c ; k" := (bind c (fun x => k))
  (at level 10, x pattern, c at level 100, k at level 200).

Definition record (ev : event) : M unit :=
  fun s => (Return tt, {| host := host s; journal := journal s ++ [ev] |}).

(** The framework object with [evs] added to its journal. *)
Definition logged (evs : list event) (s : spf) : spf :=
  {| host := host s; journal := journal s ++ evs |}.

Definition spf_info (msg : string) : M unit := record (LogInfo msg).
Definition spf_error (msg : string) : M unit := record (LogError msg).

Definition spf_register_plugin (p : value) (args : list value)
    (kwargs : gmap string value) : M assoc :=
  fun s =>
    let '(r, h) := register_plugin p args kwargs (host s) in
    (r, {| host := h; journal := journal s ++ [CallRegister p args kwargs r] |}).

(** One turn of the loop of [_find_advertised_plugins]; [continue] gives
    back [plugins] unchanged. *)
Definition discover (plugins : gmap string p_dict) (entrypoint : entrypoint)
  : M (gmap string p_dict) :=
  let name := ep_name entrypoint in
  match import_module (module_name entrypoint) with
  | Raise (ImportError _) =>
      do _ <- spf_error ("Cannot import " +:+ module_name entrypoint);
      ret plugins
  | Raise e => raise e
  | Return module =>
      match attr_given entrypoint with
      | Some attr =>
          match getattr module attr with
          | Raise (AttributeError _) =>
              do _ <- spf_error ("Cannot import " +:+ attr +:+ " from "
                                 +:+ module_name entrypoint);
              ret plugins
          | Raise e => raise e
          | Return inst =>
              ret (add_plugin (PDict name module (Some inst)) plugins)
          end
      | None => ret (add_plugin (PDict name module None) plugins)
      end
  end.

Fixpoint discover_all (plugins : gmap string p_dict) (eps : list entrypoint)
  : M (gmap string p_dict) :=
  match eps with
  | [] => ret plugins
  | ep :: rest =>
      do plugins' <- discover plugins ep; discover_all plugins' rest
  end.

Definition _find_advertised_plugins : M (gmap string p_dict) :=
  discover_all ∅ iter_entry_points.

(** The parameters [spf] and [app] of the two helpers: [spf] is the state
    of [M], and [app] is handed over and never used. *)
Definition _register_advertised_plugin (plugin_def : p_dict)
    (args : list value) (kwargs : gmap string value) : M assoc :=
  match bind_keywords "_register_advertised_plugin"
          ["spf"; "app"; "plugin_def"] kwargs with
  | Some e => raise e
  | None =>
      let name := pd_name plugin_def in
      do _ <- spf_info ("Found advertised plugin " +:+ name +:+ ".");
      spf_register_plugin (plugin_object plugin_def) args kwargs
  end.

Definition _try_register_other_plugin (plugin_name : string)
    (args : list value) (kwargs : gmap string value) : M assoc :=
  match bind_keywords "_try_register_other_plugin"
          ["spf"; "app"; "plugin_name"] kwargs with
  | Some e => raise e
  | None =>
      match import_module plugin_name with
      | Raise (ImportError _) =>
          raise (RuntimeError
                   ("Do not know how to register plugin: " +:+ plugin_name))
      | Raise e => raise e
      | Return module => spf_register_plugin module args kwargs
      end
  end.

(** One turn of the loop of [_register_plugins]. *)
Definition register_entry (advertised_plugins : gmap string p_dict)
    (registered_plugins : gmap string assoc)
    (entry : string * option string) : M (gmap string assoc) :=
  let '(plugin, options) := entry in
  do _ <- spf_info ("Loading plugin: " +:+ plugin +:+ "...");
  let '(args, kwargs) := entry_arguments options in
  let p_fold := casefold plugin in
  do assoc <-
    match advertised_plugins !! p_fold with
    | Some plugin_def => _register_advertised_plugin plugin_def args kwargs
    | None => _try_register_other_plugin plugin args kwargs
    end;
  let '(_p, reg) := assoc in
  ret (<[plugin_name reg := assoc]> registered_plugins).

Fixpoint register_entries (advertised_plugins : gmap string p_dict)
    (registered_plugins : gmap string assoc)
    (config_plugins : list (string * option string))
  : M (gmap string assoc) :=
  match config_plugins with
  | [] => ret registered_plugins
  | entry :: rest =>
      do registered' <-
        register_entry advertised_plugins registered_plugins entry;
      register_entries advertised_plugins registered' rest
  end.

Definition _register_plugins (config_plugins : list (string * option string))
  : M (gmap string assoc) :=
  do advertised_plugins <- _find_advertised_plugins;
  register_entries advertised_plugins ∅ config_plugins.

End Framework.

Arguments Spf {Host} host journal.
Arguments host {Host} s.
Arguments journal {Host} s.

End Loader.
Export Loader.


(** ** What a run did: readings of the environment and of the journal *)

Module Observe.

Section Observations.

Context {Host : Type}.
Variable import_module : string -> result value.
Variable getattr : value -> string -> result value.
Variable register_plugin :
  value -> list value -> gmap string value -> Host -> result assoc * Host.

(** What becomes of an entry point in discovery: its dictionary is built,
    or it is reported and left out, or an exception leaves the pass. *)
Inductive fate : Type :=
  | Discovered (d : p_dict)
  | Skipped (report : string)
  | Aborts (e : exn).

Definition fate_of (ep : entrypoint) : fate :=
  match import_module (module_name ep) with
  | Raise (ImportError _) => Skipped ("Cannot import " +:+ module_name ep)
  | Raise e => Aborts e
  | Return module =>
      match attr_given ep with
      | Some attr =>
          match getattr module attr with
          | Raise (AttributeError _) =>
              Skipped ("Cannot import " +:+ attr +:+ " from "
                       +:+ module_name ep)
          | Raise e => Aborts e
          | Return inst => Discovered (PDict (ep_name ep) module (Some inst))
          end
      | None => Discovered (PDict (ep_name ep) module None)
      end
  end.

Definition benign (ep : entrypoint) : Prop :=
  forall e, fate_of ep <> Aborts e.

(** The mapping after the entry points [eps], from [plugins]. *)
Definition discovered (plugins : gmap string p_dict) (eps : list entrypoint)
  : gmap string p_dict :=
  fold_left (fun m ep => match fate_of ep with
                         | Discovered d => add_plugin d m
                         | _ => m
                         end) eps plugins.

(** The reports made for the entry points [eps]. *)
Definition reports (eps : list entrypoint) : list event :=
  omap (fun ep => match fate_of ep with
                  | Skipped msg => Some (LogError msg)
                  | _ => None
                  end) eps.

(** The object a configured reference resolves to: that of the advertised
    plugin on a hit, the imported module on a miss. *)
Definition target_of (advertised_plugins : gmap string p_dict)
    (plugin : string) : option value :=
  match advertised_plugins !! casefold plugin with
  | Some plugin_def => Some (plugin_object plugin_def)
  | None =>
      match import_module plugin with
      | Return module => Some module
      | Raise _ => None
      end
  end.

(** [ev] is the call of the callback for [entry]: on the object the
    reference resolves to, with the arguments parsed from its options. *)
Definition is_call_of (advertised_plugins : gmap string p_dict)
    (entry : string * option string) (ev : event) : Prop :=
  exists p outcome,
    target_of advertised_plugins (fst entry) = Some p /\
    ev = CallRegister p (fst (entry_arguments (snd entry)))
                  (snd (entry_arguments (snd entry))) outcome.

Definition is_register (ev : event) : bool :=
  match ev with CallRegister _ _ _ _ => true | _ => false end.

(** The calls of the callback in a journal, in order. *)
Definition registrations (evs : list event) : list event :=
  List.filter is_register evs.

(** The pairs the callback returned, in order. *)
Definition returned (evs : list event) : list assoc :=
  omap (fun ev => match ev with
                  | CallRegister _ _ _ (Return a) => Some a
                  | _ => None
                  end) evs.

(** The host after the calls of a journal and no other. *)
Definition replay (evs : list event) (h : Host) : Host :=
  fold_left (fun h ev => match ev with
                         | CallRegister p args kwargs _ =>
                             snd (register_plugin p args kwargs h)
                         | _ => h
                         end) evs h.

(** Every outcome in the journal is the one the host gave, the calls being
    made one after the other from the host [h]. *)
Fixpoint faithful (h : Host) (evs : list event) : Prop :=
  match evs with
  | [] => True
  | CallRegister p args kwargs outcome :: rest =>
      outcome = fst (register_plugin p args kwargs h) /\
      faithful (snd (register_plugin p args kwargs h)) rest
  | _ :: rest => faithful h rest
  end.

(** The result mapping that a sequence of returned pairs gives: each under
    the [plugin_name] of its record, a later pair replacing an earlier one
    of the same name. *)
Definition by_plugin_name (pairs : list assoc) : gmap string assoc :=
  list_to_map (reverse ((fun a : assoc => (plugin_name (snd a), a)) <$> pairs)).

End Observations.

End Observe.
Export Observe.

(** ** A small world to run the loader in *)

Module Demo.

Definition known_modules : list string :=
  ["pkg.alpha"; "pkg.beta"; "pkg.gamma"; "mypkg.plugin"].

Definition import_module (name : string) : result value :=
  if bool_decide (name ∈ known_modules) then Return (VModule name)
  else Raise (ImportError ("No module named '" +:+ name +:+ "'")).

(** [pkg.alpha.instance] is a plugin object, [pkg.gamma.instance] is
    [None]; no other attribute exists. *)
Definition getattr (obj : value) (attr : string) : result value :=
  match obj with
  | VModule m =>
      if String.eqb m "pkg.alpha" && String.eqb attr "instance"
      then Return (VObject "AlphaPlugin" true)
      else if String.eqb m "pkg.gamma" && String.eqb attr "instance"
      then Return VNone
      else Raise (AttributeError
                    ("module '" +:+ m +:+ "' has no attribute '" +:+ attr +:+ "'"))
  | _ => Raise (AttributeError attr)
  end.

Definition canonical_name (p : value) : string :=
  match p with
  | VModule m => m
  | VObject label _ => label
  | _ => "?"
  end.

(** A host that keeps the names it registered and refuses a second
    registration under the same name. *)
Definition register_plugin (p : value) (args : list value)
    (kwargs : gmap string value) (h : list string)
  : result assoc * list string :=
  if bool_decide (canonical_name p ∈ h)
  then (Raise (OtherError "ValueError" "Plugin is already registered!"), h)
  else (Return (p, Registration (canonical_name p) (VInt (Z.of_nat (List.length args)))),
        h ++ [canonical_name p]).

Definition entry_points : list entrypoint :=
  [ EntryPoint "Alpha" "pkg.alpha" ["instance"];
    EntryPoint "Broken" "pkg.broken" [];
    EntryPoint "Beta" "pkg.beta" ["missing"];
    EntryPoint "Gamma" "pkg.gamma" ["instance"] ].

Definition colliding_entry_points : list entrypoint :=
  [ EntryPoint "foo" "pkg.alpha" []; EntryPoint "Foo" "pkg.beta" [] ].

Definition start : @spf (list string) := Spf [] [].

End Demo.

(** ** The configuration file: [_find_config_file] and [load_config_file] *)

Module ConfigFile.

(** [_get_config_defaults()]: no default option. *)
Definition _get_config_defaults : gmap string string := ∅.

Section Files.

Context {Host : Type}.

(** [os.path.abspath] and [os.path.isfile]. *)
Variable abspath : string -> string.
Variable isfile : string -> bool.
(** A [ConfigParser] made with the given defaults, [allow_no_value=True]
    and [strict=False], after [read(location)]: its [items('plugins')], or
    the exception that the reading or the missing section raises. *)
Variable parser_items :
  gmap string string -> string -> result (list (string * option string)).

Variable iter_entry_points : list entrypoint.
Variable import_module : string -> result value.
Variable getattr : value -> string -> result value.
Variable register_plugin :
  value -> list value -> gmap string value -> Host -> result assoc * Host.

Definition _find_config_file (filename : string) : result string :=
  let abs := abspath filename in
  if isfile abs then Return abs
  else Raise (OtherError "FileNotFoundError" filename).

(** The function returns nothing: [registered_plugins] is dropped. *)
Definition load_config_file (filename : string) : @M Host unit :=
  match _find_config_file filename with
  | Raise e => raise e
  | Return location =>
      bind (spf_info ("Loading spf config file " +:+ location +:+ "."))
        (fun _ =>
           let defaults := _get_config_defaults in
           match parser_items defaults location with
           | Raise e => raise e
           | Return config_plugins =>
               bind (_register_plugins iter_entry_points import_module
                       getattr register_plugin config_plugins)
                 (fun registered_plugins => ret tt)
           end)
  end.

End Files.

End ConfigFile.
Export ConfigFile.

(** ** Measures of a text *)

Module Measure.

(** [s.count(c)] for a one-character [c]. *)
Fixpoint count_char (c : ascii) (s : string) : nat :=
  match s with
  | EmptyString => O
  | String d s' =>
      if Ascii.eqb d c then S (count_char c s') else count_char c s'
  end.

(** [sep.join(parts)] for a one-character [sep]. *)
Fixpoint str_join (sep : ascii) (parts : list string) : string :=
  match parts with
  | [] => EmptyString
  | [p] => p
  | p :: rest => p +:+ String sep (str_join sep rest)
  end.

End Measure.
Export Measure.

(** ** Files of the small world *)

Module DemoFiles.

Definition abspath (filename : string) : string :=
  match filename with
  | String "/" _ => filename
  | _ => "/srv/app/" +:+ filename
  end.

Definition isfile (path : string) : bool := String.eqb path "/srv/app/spf.ini".

Definition parser_items (defaults : gmap string string) (location : string)
  : result (list (string * option string)) :=
  if String.eqb location "/srv/app/spf.ini"
  then Return [("ALPHA", Some "a,b=1"); ("mypkg.plugin", None)]
  else Raise (OtherError "NoSectionError" "No section: 'plugins'").

(** As [Demo.import_module], but [pkg.bad] does not compile. *)
Definition import_module (name : string) : result value :=
  if String.eqb name "pkg.bad"
  then Raise (OtherError "SyntaxError" "invalid syntax")
  else Demo.import_module name.

End DemoFiles.

(** * Properties *)

(** ** Text operations *)

Section TextFacts.

Lemma str_contains_app c a b :
  str_contains c (a +:+ b) = str_contains c a || str_contains c b.
Proof.
  induction a as [|d a IH]; simpl; [done|].
  destruct (Ascii.eqb d c); [done | apply IH].
Qed.

Lemma str_partition_none c s :
  str_contains c s = false -> str_partition c s = None.
Proof.
  induction s as [|d s IH]; simpl; [done|].
  destruct (Ascii.eqb d c); [done|].
  intros H. by rewrite IH.
Qed.

Lemma str_partition_first c a b :
  str_contains c a = false ->
  str_partition c (a +:+ String c b) = Some (a, b).
Proof.
  induction a as [|d a IH]; simpl.
  - by rewrite Ascii.eqb_refl.
  - destruct (Ascii.eqb d c); [done|].
    intros H. by rewrite IH.
Qed.

Lemma str_partition_some c s a b :
  str_partition c s = Some (a, b) ->
  s = a +:+ String c b /\ str_contains c a = false.
Proof.
  revert a. induction s as [|d s IH]; simpl; intros a; [done|].
  destruct (Ascii.eqb_spec d c) as [->|Hne].
  - intros [= <- <-]. done.
  - destruct (str_partition c s) as [[a' b']|] eqn:E; [|done].
    intros [= <- <-]. destruct (IH a' eq_refl) as [-> Hc].
    split; [done|]. simpl. by apply Ascii.eqb_neq in Hne as ->.
Qed.

Lemma str_contains_partition c s :
  str_contains c s = true -> is_Some (str_partition c s).
Proof.
  induction s as [|d s IH]; simpl; [done|].
  destruct (Ascii.eqb d c); [by eexists|].
  intros H. destruct (IH H) as [[a b] ->]. by eexists.
Qed.

Lemma lower_char_idemp c : lower_char (lower_char c) = lower_char c.
Proof. by destruct c as [[] [] [] [] [] [] [] []]. Qed.

Lemma casefold_idemp s : casefold (casefold s) = casefold s.
Proof.
  induction s as [|c s IH]; simpl; [done|].
  by rewrite lower_char_idemp, IH.
Qed.

End TextFacts.

(** ** Option strings *)

Section OptionFacts.

Implicit Types (part val : string) (args : list value)
  (kwargs : gmap string value).

Example py_int_examples :
  py_int "1" = Some 1 /\ py_int " -12_3 " = Some (-123) /\
  py_int "+007" = Some 7 /\ py_int "" = None /\ py_int "1_" = None /\
  py_int "- 1" = None /\ py_int "0x10" = None /\ py_int "foo" = None.
Proof. by vm_compute. Qed.

Example py_float_examples :
  py_float "2.5" = Some float_2_5 /\
  py_float "1." = Some (binary_round 53 1024 false 1 0) /\
  py_float ".5" = Some (binary_round 53 1024 false 1 (-1)) /\
  py_float "-0.0" = Some (S754_zero true) /\
  py_float "1.0e400" = Some (S754_infinity false) /\
  py_float "." = None /\ py_float "1.5e" = None /\ py_float "1.2.3" = None.
Proof. by vm_compute. Qed.

Lemma digit_facts c :
  is_digit c = true ->
  is_space c = false /\ Ascii.eqb c "_" = false /\ Ascii.eqb c "-" = false /\
  Ascii.eqb c "+" = false /\ Ascii.eqb c "." = false /\
  Ascii.eqb c "T" = false /\ Ascii.eqb c "F" = false /\ Ascii.eqb c "N" = false.
Proof. by destruct c as [[] [] [] [] [] [] [] []]. Qed.

Lemma lstrip_digits ds :
  Forall (fun c => is_digit c = true) ds -> lstrip ds = ds.
Proof.
  destruct 1 as [|c ds Hc _]; [done|]. simpl.
  by destruct (digit_facts c Hc) as (-> & _).
Qed.

Lemma drop_underscores_digits prev ds :
  Forall (fun c => is_digit c = true) ds -> drop_underscores prev ds = Some ds.
Proof.
  intros H. revert prev. induction H as [|c ds Hc _ IH]; intros prev; [done|].
  simpl. destruct (digit_facts c Hc) as (_ & -> & _). by rewrite IH.
Qed.

Lemma span_digits_digits ds :
  Forall (fun c => is_digit c = true) ds -> span_digits ds = (ds, []).
Proof.
  induction 1 as [|c ds Hc _ IH]; [done|]. simpl. by rewrite Hc, IH.
Qed.

(** [int] reads a plain run of digits as the number it writes. *)
Lemma py_int_digits ds :
  Forall (fun c => is_digit c = true) ds -> ds <> [] ->
  Z.of_nat (List.length ds) <= int_max_str_digits ->
  py_int (string_of_list_ascii ds) = Some (digits_value ds).
Proof.
  intros Hds Hne Hlen%Z.ltb_ge. unfold py_int, strip.
  rewrite list_ascii_of_string_of_list_ascii, (lstrip_digits ds Hds).
  rewrite lstrip_digits, rev_involutive by by apply List.Forall_rev.
  destruct Hds as [|c ds Hc Hds]; [done|]. unfold take_sign.
  destruct (digit_facts c Hc) as (_ & _ & -> & -> & _).
  rewrite drop_underscores_digits, span_digits_digits by by constructor.
  by rewrite Hlen.
Qed.

(** So does the parse: such a text becomes that integer. *)
Lemma coerce_digits ds :
  Forall (fun c => is_digit c = true) ds -> ds <> [] ->
  Z.of_nat (List.length ds) <= int_max_str_digits ->
  coerce (string_of_list_ascii ds) = VInt (digits_value ds).
Proof.
  intros Hds Hne Hlen. unfold coerce. rewrite (py_int_digits ds Hds Hne Hlen).
  assert (str_contains "." (string_of_list_ascii ds) = false) as ->.
  { clear Hne Hlen. induction Hds as [|c ds Hc _ IH]; [done|]. simpl.
    by destruct (digit_facts c Hc) as (_ & _ & _ & _ & -> & _). }
  destruct Hds as [|c ds Hc Hds]; [done|]. simpl.
  by destruct (digit_facts c Hc) as (_ & _ & _ & _ & _ & -> & -> & ->).
Qed.

Lemma split_key_keyed k v :
  str_contains "=" k = false -> split_key (k +:+ String "=" v) = (Some k, v).
Proof.
  intros Hk. unfold split_key.
  rewrite str_contains_app. simpl. rewrite orb_true_r. simpl.
  by rewrite str_partition_first.
Qed.

Lemma split_key_unkeyed part :
  str_contains "=" part = false -> split_key part = (None, part).
Proof. intros H. unfold split_key. by rewrite H. Qed.

Lemma split_key_inv part :
  str_contains "=" part = true ->
  exists k v, part = k +:+ String "=" v /\ str_contains "=" k = false /\
              split_key part = (Some k, v).
Proof.
  intros H. destruct (str_contains_partition _ _ H) as [[k v] E].
  destruct (str_partition_some _ _ _ _ E) as [-> Hk].
  exists k, v. split_and!; [done..|]. by apply split_key_keyed.
Qed.

Lemma key_given_some k : k <> "" -> key_given (Some k) = Some k.
Proof.
  intros Hk. simpl. by apply String.eqb_neq in Hk as ->.
Qed.

Lemma option_step_named args kwargs k v :
  str_contains "=" k = false -> k <> "" ->
  option_step (args, kwargs) (k +:+ String "=" v)
  = (args, <[k := coerce v]> kwargs).
Proof.
  intros Hk Hne. unfold option_step.
  by rewrite split_key_keyed, key_given_some.
Qed.

Lemma option_step_positional args kwargs part :
  str_contains "=" part = false ->
  option_step (args, kwargs) part = (args ++ [coerce part], kwargs).
Proof. intros H. unfold option_step. by rewrite split_key_unkeyed. Qed.

Lemma option_step_empty_key args kwargs v :
  option_step (args, kwargs) (String "=" v) = (args ++ [coerce v], kwargs).
Proof. done. Qed.

Lemma option_step_entry args kwargs part :
  option_step (args, kwargs) part
  = match part_entry part with
    | (Some k, v) => (args, <[k := v]> kwargs)
    | (None, v) => (args ++ [v], kwargs)
    end.
Proof.
  unfold option_step, part_entry. destruct (split_key part) as [kw v].
  by destruct (key_given kw).
Qed.

Lemma fold_option_step parts args kwargs :
  fold_left option_step parts (args, kwargs)
  = (args ++ positional_values parts,
     list_to_map (reverse (named_values parts)) ∪ kwargs).
Proof.
  revert args kwargs. induction parts as [|part parts IH]; intros args kwargs.
  - simpl. by rewrite app_nil_r, (left_id_L ∅ (∪)).
  - cbn [fold_left]. rewrite option_step_entry.
    unfold positional_values, named_values. simpl omap.
    destruct (part_entry part) as [[k|] v]; rewrite IH.
    + f_equal. rewrite reverse_cons, list_to_map_app. simpl.
      rewrite insert_empty, <- (assoc_L (∪)).
      by rewrite <- insert_union_singleton_l.
    + by rewrite <- (assoc_L (++)).
Qed.

(** The result of the parse, part by part: the positional sequence holds the
    scalars of the parts without a key in order, and a name maps to the
    scalar of the last part that gives it. *)
Lemma transform_option_dict_spec options :
  _transform_option_dict options
  = (positional_values (str_split "," options),
     list_to_map (reverse (named_values (str_split "," options)))).
Proof.
  unfold _transform_option_dict. rewrite fold_option_step.
  by rewrite (right_id_L ∅ (∪)).
Qed.

(** C1.  Every scalar of the result is [coerce] of a value-text, and
    [coerce] follows the first rule that matches: the literals [True],
    [False] and [None]; then, for a text with a dot, the float parse; then
    otherwise the integer parse; the text itself when the parse fails.  The
    text [a,b=1,c=True,d=2.5,e=None] gives the positional sequence [("a",)]
    and the names [b], [c], [d], [e] with 1, true, 2.5 and null. *)
Theorem coerce_first_matching_rule :
  (forall options,
     _transform_option_dict options
     = (positional_values (str_split "," options),
        list_to_map (reverse (named_values (str_split "," options)))))
  /\ (forall part, snd (part_entry part) = coerce (snd (split_key part)))
  /\ coerce "True" = VBool true
  /\ coerce "False" = VBool false
  /\ coerce "None" = VNone
  /\ (forall val, val <> "True" -> val <> "False" -> val <> "None" ->
        str_contains "." val = true ->
        coerce val = match py_float val with
                     | Some f => VFloat f
                     | None => VStr val
                     end)
  /\ (forall val, val <> "True" -> val <> "False" -> val <> "None" ->
        str_contains "." val = false ->
        coerce val = match py_int val with
                     | Some i => VInt i
                     | None => VStr val
                     end)
  /\ _transform_option_dict "a,b=1,c=True,d=2.5,e=None"
     = ([VStr "a"],
        <["b" := VInt 1]> (<["c" := VBool true]>
          (<["d" := VFloat float_2_5]> (<["e" := VNone]> ∅)))).
Proof.
  split_and!.
  - apply transform_option_dict_spec.
  - intros part. unfold part_entry. by destruct (split_key part).
  - done.
  - done.
  - done.
  - intros val H1 H2 H3 Hdot. unfold coerce.
    apply String.eqb_neq in H1 as ->. apply String.eqb_neq in H2 as ->.
    apply String.eqb_neq in H3 as ->. by rewrite Hdot.
  - intros val H1 H2 H3 Hdot. unfold coerce.
    apply String.eqb_neq in H1 as ->. apply String.eqb_neq in H2 as ->.
    apply String.eqb_neq in H3 as ->. by rewrite Hdot.
  - by vm_compute.
Qed.

Lemma coerce_first_matching_rule_witness :
  coerce "2.5" = VFloat float_2_5 /\ coerce "12" = VInt 12 /\
  coerce "1.2.3" = VStr "1.2.3" /\ coerce "true" = VStr "true".
Proof.
  destruct coerce_first_matching_rule as (_ & _ & _ & _ & _ & Hf & Hi & _).
  split_and!.
  - rewrite (Hf "2.5"); [reflexivity | discriminate.. | reflexivity].
  - rewrite (Hi "12"); [reflexivity | discriminate.. | reflexivity].
  - rewrite (Hf "1.2.3"); [reflexivity | discriminate.. | reflexivity].
  - rewrite (Hi "true"); [reflexivity | discriminate.. | reflexivity].
Defined.

(** C4 as stated fails: the empty text is one empty part, and that part is
    appended to the positional sequence as the empty string. *)
Lemma transform_empty_counterexample :
  _transform_option_dict "" <> ([], ∅).
Proof. by vm_compute. Qed.

(** C4, amended.  The parse of the empty text gives the positional sequence
    [("",)] and no names; the registration pass does not parse an empty or
    missing option text and takes no positional and no named arguments. *)
Theorem transform_empty_text :
  _transform_option_dict "" = ([VStr ""], ∅)
  /\ entry_arguments (Some "") = ([], ∅)
  /\ entry_arguments None = ([], ∅).
Proof. by vm_compute. Qed.

(** C7.  A part with [=] is cut at its first [=] only: the key is the text
    before it and the value-text all the text after it, later [=] included;
    a part without [=] is a value-text without key. *)
Theorem split_on_first_equals :
  (forall k v, str_contains "=" k = false ->
     split_key (k +:+ String "=" v) = (Some k, v))
  /\ (forall part, str_contains "=" part = true ->
       exists k v, part = k +:+ String "=" v /\ str_contains "=" k = false /\
                   split_key part = (Some k, v))
  /\ (forall part, str_contains "=" part = false ->
       split_key part = (None, part))
  /\ (forall args kwargs k v, str_contains "=" k = false -> k <> "" ->
       option_step (args, kwargs) (k +:+ String "=" v)
       = (args, <[k := coerce v]> kwargs))
  /\ (forall args kwargs part, str_contains "=" part = false ->
       option_step (args, kwargs) part = (args ++ [coerce part], kwargs))
  /\ _transform_option_dict "x=a=b,y" = ([VStr "y"], <["x" := VStr "a=b"]> ∅).
Proof.
  split_and!.
  - apply split_key_keyed.
  - apply split_key_inv.
  - apply split_key_unkeyed.
  - apply option_step_named.
  - apply option_step_positional.
  - by vm_compute.
Qed.

Lemma split_on_first_equals_witness :
  split_key "url=http://h/?a=1&b=2" = (Some "url", "http://h/?a=1&b=2")
  /\ split_key "plain" = (None, "plain").
Proof.
  destruct split_on_first_equals as (Hk & _ & Hn & _).
  split.
  - apply (Hk "url" "http://h/?a=1&b=2"). reflexivity.
  - apply (Hn "plain"). reflexivity.
Defined.

(** C10.  A part that begins with [=], so that the text before its first
    [=] is empty, adds its scalar to the positional sequence and leaves the
    names as they are. *)
Theorem empty_key_is_positional :
  forall v args kwargs,
    split_key (String "=" v) = (Some "", v)
    /\ option_step (args, kwargs) (String "=" v)
       = (args ++ [coerce v], kwargs)
    /\ _transform_option_dict "=foo" = ([VStr "foo"], ∅)
    /\ _transform_option_dict "a=1,=2,=b=c"
       = ([VInt 2; VStr "b=c"], <["a" := VInt 1]> ∅).
Proof.
  intros v args kwargs. split_and!; [done | done | by vm_compute..].
Qed.

End OptionFacts.

(** ** Discovery *)

Section DiscoveryFacts.

Context {Host : Type}.
Variable import_module : string -> result value.
Variable getattr : value -> string -> result value.

Local Abbreviation fate_of := (fate_of import_module getattr).
Local Abbreviation benign := (benign import_module getattr).
Local Abbreviation discovered := (discovered import_module getattr).
Local Abbreviation reports := (reports import_module getattr).
Local Abbreviation discover := (@discover Host import_module getattr).
Local Abbreviation discover_all := (@discover_all Host import_module getattr).

Implicit Types (plugins : gmap string p_dict) (ep : entrypoint)
  (eps : list entrypoint) (s : @spf Host).

Lemma logged_nil s : logged [] s = s.
Proof. destruct s. unfold logged. simpl. by rewrite app_nil_r. Qed.

Lemma logged_logged evs1 evs2 s :
  logged evs2 (logged evs1 s) = logged (evs1 ++ evs2) s.
Proof. unfold logged. simpl. by rewrite (assoc_L (++)). Qed.

Lemma discover_fate plugins ep s :
  discover plugins ep s
  = match fate_of ep with
    | Discovered d => (Return (add_plugin d plugins), s)
    | Skipped msg => (Return plugins, logged [LogError msg] s)
    | Aborts e => (Raise e, s)
    end.
Proof.
  unfold Loader.discover, Observe.fate_of.
  destruct (import_module (module_name ep)) as [module|[]]; try done.
  destruct (attr_given ep) as [attr|]; [|done].
  by destruct (getattr module attr) as [inst|[]].
Qed.

Lemma discover_all_app plugins eps1 eps2 s :
  discover_all plugins (eps1 ++ eps2) s
  = bind (discover_all plugins eps1) (fun m => discover_all m eps2) s.
Proof.
  revert plugins s. induction eps1 as [|ep eps1 IH]; intros plugins s; [done|].
  simpl. unfold bind.
  destruct (discover plugins ep s) as [[m|e] s1]; [|done].
  apply IH.
Qed.

Lemma discover_all_returns plugins eps s M s' :
  discover_all plugins eps s = (Return M, s') ->
  M = discovered plugins eps /\ s' = logged (reports eps) s.
Proof.
  revert plugins s. induction eps as [|ep eps IH]; intros plugins s.
  - intros [= <- <-]. by rewrite logged_nil.
  - simpl. unfold bind. rewrite discover_fate.
    unfold Observe.discovered, Observe.reports. simpl.
    destruct (fate_of ep) as [d|msg|e]; [| |done].
    + apply IH.
    + intros H. apply IH in H as [-> ->]. by rewrite logged_logged.
Qed.

Lemma discover_all_total plugins eps s :
  Forall benign eps ->
  discover_all plugins eps s
  = (Return (discovered plugins eps), logged (reports eps) s).
Proof.
  intros Hb. revert plugins s.
  induction Hb as [|ep eps Hep _ IH]; intros plugins s.
  - by rewrite logged_nil.
  - simpl. unfold bind. rewrite discover_fate.
    unfold Observe.discovered, Observe.reports. simpl.
    destruct (fate_of ep) as [d|msg|e] eqn:E.
    + apply IH.
    + rewrite IH. by rewrite logged_logged.
    + by destruct (Hep e).
Qed.

Lemma discover_all_outcome plugins eps s1 s2 :
  fst (discover_all plugins eps s1) = fst (discover_all plugins eps s2).
Proof.
  revert plugins s1 s2.
  induction eps as [|ep eps IH]; intros plugins s1 s2; [done|].
  simpl. unfold bind. rewrite !discover_fate.
  destruct (fate_of ep); [apply IH | apply IH | done].
Qed.

Lemma discover_all_skips plugins eps1 ep eps2 msg s :
  fate_of ep = Skipped msg ->
  discover_all plugins (eps1 ++ ep :: eps2) s
  = bind (discover_all plugins eps1)
         (fun m => bind (spf_error msg) (fun _ => discover_all m eps2)) s.
Proof.
  intros Hep. rewrite discover_all_app. unfold bind.
  destruct (discover_all plugins eps1 s) as [[m|e] s1]; [|done].
  simpl. unfold bind. by rewrite discover_fate, Hep.
Qed.

Lemma discover_all_without plugins eps1 ep eps2 msg s :
  fate_of ep = Skipped msg ->
  fst (discover_all plugins (eps1 ++ ep :: eps2) s)
  = fst (discover_all plugins (eps1 ++ eps2) s).
Proof.
  intros Hep. rewrite (discover_all_skips _ _ _ _ msg), discover_all_app by done.
  unfold bind.
  destruct (discover_all plugins eps1 s) as [[m|e] s1]; [|done].
  simpl. apply discover_all_outcome.
Qed.

Lemma add_plugin_lookup_name d plugins :
  add_plugin d plugins !! pd_name d = Some d.
Proof.
  unfold add_plugin. destruct (decide (casefold (pd_name d) = pd_name d)) as [->|].
  - by rewrite lookup_insert_eq.
  - by rewrite lookup_insert_ne, lookup_insert_eq.
Qed.

Lemma add_plugin_lookup_fold d plugins :
  add_plugin d plugins !! casefold (pd_name d) = Some d.
Proof. unfold add_plugin. by rewrite lookup_insert_eq. Qed.

Lemma add_plugin_lookup_other d plugins k :
  pd_name d <> k -> casefold (pd_name d) <> k ->
  add_plugin d plugins !! k = plugins !! k.
Proof. intros. unfold add_plugin. by rewrite !lookup_insert_ne. Qed.

Lemma fate_name ep d : fate_of ep = Discovered d -> pd_name d = ep_name ep.
Proof.
  unfold Observe.fate_of.
  destruct (import_module (module_name ep)) as [module|[]]; try done.
  destruct (attr_given ep) as [attr|]; [|by intros [= <-]].
  destruct (getattr module attr) as [inst|[]]; try done. by intros [= <-].
Qed.

Lemma discovered_cons plugins ep eps :
  discovered plugins (ep :: eps)
  = discovered (match fate_of ep with
                | Discovered d => add_plugin d plugins
                | _ => plugins
                end) eps.
Proof. done. Qed.

Lemma discovered_app plugins eps1 eps2 :
  discovered plugins (eps1 ++ eps2) = discovered (discovered plugins eps1) eps2.
Proof. apply fold_left_app. Qed.

(** A key that no later discovered entry writes keeps its value. *)
Lemma discovered_lookup_kept plugins eps k :
  (forall ep d, ep ∈ eps -> fate_of ep = Discovered d ->
                ep_name ep <> k /\ casefold (ep_name ep) <> k) ->
  discovered plugins eps !! k = plugins !! k.
Proof.
  revert plugins. induction eps as [|ep eps IH]; intros plugins Hk; [done|].
  rewrite discovered_cons, IH.
  - destruct (fate_of ep) as [d| |] eqn:E; [|done..].
    destruct (Hk ep d) as [H1 H2]; [left | done |].
    apply add_plugin_lookup_other; by rewrite (fate_name ep d).
  - intros ep' d' Hin. apply Hk. by right.
Qed.

(** Every value of the mapping is the dictionary of a discovered entry
    named, literally or after case folding, by its key. *)
Lemma discovered_lookup_inv plugins eps k d :
  discovered plugins eps !! k = Some d ->
  plugins !! k = Some d \/
  exists ep, ep ∈ eps /\ fate_of ep = Discovered d /\
             (ep_name ep = k \/ casefold (ep_name ep) = k).
Proof.
  revert plugins. induction eps as [|ep eps IH]; intros plugins; [by left|].
  rewrite discovered_cons. intros H.
  apply IH in H as [H|(ep' & Hin & Hd & Hk)].
  - destruct (fate_of ep) as [d0| |] eqn:E; [|by left..].
    destruct (decide (pd_name d0 = k)) as [Hn|Hn].
    { rewrite <- Hn, add_plugin_lookup_name in H. injection H as ->.
      right. exists ep. split_and!; [left | done |].
      left. by rewrite <- (fate_name ep d). }
    destruct (decide (casefold (pd_name d0) = k)) as [Hc|Hc].
    { rewrite <- Hc, add_plugin_lookup_fold in H. injection H as ->.
      right. exists ep. split_and!; [left | done |].
      right. by rewrite <- (fate_name ep d). }
    left. by rewrite add_plugin_lookup_other in H.
  - right. exists ep'. split_and!; [by right | done..].
Qed.

(** The last discovered entry of its case-folded name is found under its
    name and under the case-folded name. *)
Lemma discovered_lookup_last plugins eps1 ep eps2 d :
  fate_of ep = Discovered d ->
  (forall ep' d', ep' ∈ eps2 -> fate_of ep' = Discovered d' ->
     casefold (ep_name ep') <> casefold (ep_name ep)) ->
  discovered plugins (eps1 ++ ep :: eps2) !! ep_name ep = Some d /\
  discovered plugins (eps1 ++ ep :: eps2) !! casefold (ep_name ep) = Some d.
Proof.
  intros Hd Hlast.
  rewrite discovered_app, discovered_cons, Hd.
  pose proof (fate_name ep d Hd) as Hn.
  split.
  - rewrite discovered_lookup_kept.
    + by rewrite <- Hn, add_plugin_lookup_name.
    + intros ep' d' Hin Hd'. specialize (Hlast ep' d' Hin Hd'). split.
      * intros Heq. apply Hlast. by rewrite Heq.
      * intros Heq. apply Hlast. by rewrite <- Heq, casefold_idemp.
  - rewrite discovered_lookup_kept.
    + by rewrite <- Hn, add_plugin_lookup_fold.
    + intros ep' d' Hin Hd'. specialize (Hlast ep' d' Hin Hd'). split.
      * intros Heq. apply Hlast. by rewrite Heq, casefold_idemp.
      * done.
Qed.

Lemma fate_of_import_error ep m :
  import_module (module_name ep) = Raise (ImportError m) ->
  fate_of ep = Skipped ("Cannot import " +:+ module_name ep).
Proof. intros H. unfold Observe.fate_of. by rewrite H. Qed.

Lemma fate_of_attribute_error ep module attr m :
  import_module (module_name ep) = Return module ->
  attr_given ep = Some attr ->
  getattr module attr = Raise (AttributeError m) ->
  fate_of ep
  = Skipped ("Cannot import " +:+ attr +:+ " from " +:+ module_name ep).
Proof. intros H1 H2 H3. unfold Observe.fate_of. by rewrite H1, H2, H3. Qed.

(** The last discovered entry that writes a literal name, as its own name
    or as its case-folded name, is the one found under it. *)
Lemma discovered_lookup_literal plugins eps1 ep eps2 d :
  fate_of ep = Discovered d ->
  (forall ep' d', ep' ∈ eps2 -> fate_of ep' = Discovered d' ->
     ep_name ep' <> ep_name ep /\ casefold (ep_name ep') <> ep_name ep) ->
  discovered plugins (eps1 ++ ep :: eps2) !! ep_name ep = Some d.
Proof.
  intros Hd Hkept. rewrite discovered_app, discovered_cons, Hd.
  rewrite discovered_lookup_kept by done.
  by rewrite <- (fate_name ep d Hd), add_plugin_lookup_name.
Qed.

(** C5, amended.  When no entry makes discovery raise, it returns a mapping
    in which a discovered entry has its dictionary under its literal name
    unless a later discovered entry has that text as its name or as its
    case-folded name, and under its case-folded name unless the name of a
    later discovered entry folds to the same key.  An entry that is the
    last of its case-folded name has the same dictionary under both keys,
    and that dictionary is what the case-folded key of every earlier entry
    of the same case-folded name maps to: the last one wins. *)
Theorem discovery_index_last_wins eps1 ep eps2 d s :
  Forall benign (eps1 ++ ep :: eps2) ->
  fate_of ep = Discovered d ->
  exists M s',
    @_find_advertised_plugins Host (eps1 ++ ep :: eps2) import_module getattr s
    = (Return M, s')
    /\ ((forall ep' d', ep' ∈ eps2 -> fate_of ep' = Discovered d' ->
           ep_name ep' <> ep_name ep /\ casefold (ep_name ep') <> ep_name ep) ->
        M !! ep_name ep = Some d)
    /\ ((forall ep' d', ep' ∈ eps2 -> fate_of ep' = Discovered d' ->
           casefold (ep_name ep') <> casefold (ep_name ep)) ->
        M !! ep_name ep = Some d
        /\ M !! casefold (ep_name ep) = Some d
        /\ (forall ep0, ep0 ∈ eps1 ->
              casefold (ep_name ep0) = casefold (ep_name ep) ->
              M !! casefold (ep_name ep0) = Some d)).
Proof.
  intros Hb Hd. unfold _find_advertised_plugins.
  rewrite discover_all_total by done.
  eexists _, _. split; [done|]. split.
  - intros Hkept. by apply discovered_lookup_literal.
  - intros Hlast.
    destruct (discovered_lookup_last ∅ eps1 ep eps2 d Hd Hlast) as [H1 H2].
    split_and!; [done..|].
    intros ep0 _ ->. done.
Qed.

(** C6, amended.  An entry whose module raises [ImportError], or whose declared
    attribute raises [AttributeError], is reported with [spf.error] and
    adds nothing: discovery goes on with the entries after it from the
    mapping it had, its outcome is the one without that entry, every value
    of the mapping belongs to another entry, and the pass returns when no
    other entry makes it raise. *)
Theorem discovery_skips_failed_entry eps1 ep eps2 msg s :
  ((exists m, import_module (module_name ep) = Raise (ImportError m)) /\
   msg = "Cannot import " +:+ module_name ep)
  \/ (exists module attr m,
        import_module (module_name ep) = Return module /\
        attr_given ep = Some attr /\
        getattr module attr = Raise (AttributeError m) /\
        msg = "Cannot import " +:+ attr +:+ " from " +:+ module_name ep) ->
  (forall plugins,
     discover plugins ep s = (Return plugins, logged [LogError msg] s))
  /\ @_find_advertised_plugins Host (eps1 ++ ep :: eps2) import_module getattr s
     = bind (discover_all ∅ eps1)
         (fun m => bind (spf_error msg) (fun _ => discover_all m eps2)) s
  /\ fst (@_find_advertised_plugins Host (eps1 ++ ep :: eps2)
            import_module getattr s)
     = fst (@_find_advertised_plugins Host (eps1 ++ eps2)
              import_module getattr s)
  /\ (forall M s',
        @_find_advertised_plugins Host (eps1 ++ ep :: eps2)
          import_module getattr s = (Return M, s') ->
        LogError msg ∈ journal s' /\
        forall k d, M !! k = Some d ->
          exists ep', ep' ∈ eps1 ++ eps2 /\ fate_of ep' = Discovered d /\
                      (ep_name ep' = k \/ casefold (ep_name ep') = k))
  /\ (Forall benign (eps1 ++ eps2) ->
      exists M s',
        @_find_advertised_plugins Host (eps1 ++ ep :: eps2)
          import_module getattr s = (Return M, s')).
Proof.
  intros Hfail.
  assert (fate_of ep = Skipped msg) as Hep.
  { destruct Hfail as [[[m Hm] ->]|(module & attr & m & H1 & H2 & H3 & ->)].
    - by eapply fate_of_import_error.
    - by eapply fate_of_attribute_error. }
  unfold _find_advertised_plugins. split_and!.
  - intros plugins. by rewrite discover_fate, Hep.
  - by apply discover_all_skips.
  - by eapply discover_all_without.
  - intros M s' Hrun.
    pose proof (discover_all_without ∅ eps1 ep eps2 msg s Hep) as Hsame.
    rewrite Hrun in Hsame. simpl in Hsame.
    apply discover_all_returns in Hrun as [_ ->]. split.
    + unfold logged, Observe.reports. simpl. rewrite omap_app. simpl.
      rewrite Hep, !elem_of_app, elem_of_cons. auto.
    + intros k d Hk.
      destruct (discover_all ∅ (eps1 ++ eps2) s) as [r s0] eqn:E.
      simpl in Hsame. subst r.
      apply discover_all_returns in E as [-> _].
      apply discovered_lookup_inv in Hk as [Hk|Hk]; [|done].
      by rewrite lookup_empty in Hk.
  - intros Hb. eexists _, _. apply discover_all_total.
    apply Forall_app in Hb as [Hb1 Hb2]. apply Forall_app. split; [done|].
    apply Forall_cons. split; [|done].
    intros e. by rewrite Hep.
Qed.

End DiscoveryFacts.

Lemma discovery_skips_failed_entry_witness :
  exists M,
    fst (_find_advertised_plugins Demo.entry_points
           Demo.import_module Demo.getattr Demo.start) = Return M
    /\ M !! "Broken" = None /\ M !! "broken" = None
    /\ M !! "gamma"
       = Some (PDict "Gamma" (VModule "pkg.gamma") (Some VNone)).
Proof.
  destruct (discovery_skips_failed_entry Demo.import_module Demo.getattr
              [EntryPoint "Alpha" "pkg.alpha" ["instance"]]
              (EntryPoint "Broken" "pkg.broken" [])
              [EntryPoint "Beta" "pkg.beta" ["missing"];
               EntryPoint "Gamma" "pkg.gamma" ["instance"]]
              "Cannot import pkg.broken" Demo.start)
    as (_ & _ & Hsame & _ & _).
  { left. split; [|reflexivity]. eexists. reflexivity. }
  eexists. split.
  - etransitivity; [exact Hsame|]. vm_compute. reflexivity.
  - by vm_compute.
Defined.

(** C5 as stated fails: of the entries [foo] and [Foo], both discovered,
    the first is not found under its literal name [foo], which the second
    takes as its case-folded name. *)
Lemma discovery_literal_name_counterexample :
  let ep := EntryPoint "foo" "pkg.alpha" [] in
  let d := PDict "foo" (VModule "pkg.alpha") None in
  ep ∈ Demo.colliding_entry_points /\
  fate_of Demo.import_module Demo.getattr ep = Discovered d /\
  exists M s',
    _find_advertised_plugins Demo.colliding_entry_points
      Demo.import_module Demo.getattr Demo.start = (Return M, s') /\
    M !! ep_name ep = Some (PDict "Foo" (VModule "pkg.beta") None) /\
    M !! ep_name ep <> Some d.
Proof.
  simpl. split_and!; [by left | done |].
  eexists _, _. split; [by vm_compute|]. split; [by vm_compute|].
  by vm_compute.
Qed.

Lemma discovery_index_last_wins_witness :
  (exists M s',
     _find_advertised_plugins
       [EntryPoint "Foo" "pkg.alpha" []; EntryPoint "FOO" "pkg.beta" []]
       Demo.import_module Demo.getattr Demo.start = (Return M, s')
     /\ M !! "Foo" = Some (PDict "Foo" (VModule "pkg.alpha") None))
  /\ (exists M s',
       _find_advertised_plugins Demo.colliding_entry_points
         Demo.import_module Demo.getattr Demo.start = (Return M, s')
       /\ M !! "Foo" = Some (PDict "Foo" (VModule "pkg.beta") None)
       /\ M !! "foo" = Some (PDict "Foo" (VModule "pkg.beta") None)).
Proof.
  split.
  - destruct (discovery_index_last_wins Demo.import_module Demo.getattr
                [] (EntryPoint "Foo" "pkg.alpha" [])
                [EntryPoint "FOO" "pkg.beta" []]
                (PDict "Foo" (VModule "pkg.alpha") None) Demo.start)
      as (M & s' & Hrun & Hliteral & _).
    + repeat constructor; intros e; by vm_compute.
    + reflexivity.
    + exists M, s'. split; [exact Hrun|]. apply Hliteral.
      intros ep' d' Hin _. apply list_elem_of_singleton in Hin as ->.
      split; discriminate.
  - destruct (discovery_index_last_wins Demo.import_module Demo.getattr
                [EntryPoint "foo" "pkg.alpha" []]
                (EntryPoint "Foo" "pkg.beta" []) []
                (PDict "Foo" (VModule "pkg.beta") None) Demo.start)
      as (M & s' & Hrun & _ & Hlast).
    + repeat constructor; intros e; by vm_compute.
    + reflexivity.
    + destruct Hlast as (Hname & Hfold & _).
      { intros ep' d' Hin. by apply elem_of_nil in Hin. }
      exists M, s'. split_and!; [exact Hrun | exact Hname | exact Hfold].
Defined.

(** C6 as stated fails: importing [pkg.bad] fails with a [SyntaxError];
    nothing is reported, the pass raises, and the entry after it is not
    processed. *)
Lemma discovery_other_failure_counterexample :
  DemoFiles.import_module "pkg.bad"
  = Raise (OtherError "SyntaxError" "invalid syntax")
  /\ _find_advertised_plugins
       [EntryPoint "Alpha" "pkg.alpha" ["instance"];
        EntryPoint "Bad" "pkg.bad" [];
        EntryPoint "Gamma" "pkg.gamma" []]
       DemoFiles.import_module Demo.getattr Demo.start
     = (Raise (OtherError "SyntaxError" "invalid syntax"), Demo.start)
  /\ journal Demo.start = [].
Proof. split_and!; by vm_compute. Qed.

(** ** Registration *)

(** Opens one turn of the registration loop: the notice is logged and the
    arguments of the entry are at hand. *)
Ltac enter_entry :=
  unfold Loader.register_entry, bind, spf_info, record; simpl.

Section RegistrationFacts.

Context {Host : Type}.
Variable import_module : string -> result value.
Variable getattr : value -> string -> result value.
Variable register_plugin :
  value -> list value -> gmap string value -> Host -> result assoc * Host.

Local Abbreviation target_of := (target_of import_module).
Local Abbreviation is_call_of := (is_call_of import_module).
Local Abbreviation replay := (replay register_plugin).
Local Abbreviation faithful := (faithful register_plugin).
Local Abbreviation register_entry :=
  (@register_entry Host import_module register_plugin).
Local Abbreviation register_entries :=
  (@register_entries Host import_module register_plugin).

Implicit Types (adv : gmap string p_dict) (R : gmap string assoc)
  (entry : string * option string) (s : @spf Host) (evs : list event).

Lemma replay_app evs1 evs2 h :
  replay (evs1 ++ evs2) h = replay evs2 (replay evs1 h).
Proof. apply fold_left_app. Qed.

Lemma faithful_app evs1 evs2 h :
  faithful h (evs1 ++ evs2) <-> faithful h evs1 /\ faithful (replay evs1 h) evs2.
Proof.
  revert h. induction evs1 as [|ev evs1 IH]; intros h; simpl; [tauto|].
  destruct ev; simpl; rewrite ?IH; tauto.
Qed.

Lemma registrations_app evs1 evs2 :
  registrations (evs1 ++ evs2) = registrations evs1 ++ registrations evs2.
Proof. apply List.filter_app. Qed.

Lemma returned_app evs1 evs2 :
  returned (evs1 ++ evs2) = returned evs1 ++ returned evs2.
Proof. apply omap_app. Qed.

(** What one turn of the registration loop does. *)
Lemma register_entry_trace adv R entry s r s' :
  register_entry adv R entry s = (r, s') ->
  exists evs,
    s' = Spf (replay evs (host s)) (journal s ++ evs) /\
    faithful (host s) evs /\
    match r with
    | Return R' =>
        exists ev a,
          registrations evs = [ev] /\ is_call_of adv entry ev /\
          returned evs = [a] /\ R' = <[plugin_name (snd a) := a]> R
    | Raise _ =>
        returned evs = [] /\
        (registrations evs = [] \/
         exists ev, registrations evs = [ev] /\ is_call_of adv entry ev)
    end.
Proof.
  destruct entry as [plugin options].
  enter_entry.
  destruct (entry_arguments options) as [args kwargs] eqn:Ea.
  assert (forall p outcome,
            target_of adv plugin = Some p ->
            is_call_of adv (plugin, options)
              (CallRegister p args kwargs outcome)) as Hcall.
  { intros p outcome Hp. exists p, outcome. simpl. by rewrite Ea. }
  unfold Observe.target_of in Hcall.
  destruct (adv !! casefold plugin) as [d|] eqn:Eadv.
  - unfold _register_advertised_plugin.
    destruct (bind_keywords _ _ kwargs) as [e|].
    + intros [= <- <-]. eexists [LogInfo _].
      split; [done|]. split; [done|]. split; [done|]. by left.
    + unfold bind, spf_info, record, spf_register_plugin. simpl.
      destruct (register_plugin (plugin_object d) args kwargs (host s))
        as [[[p reg]|e] h'] eqn:Er; intros [= <- <-];
        eexists [LogInfo _; LogInfo _; CallRegister _ _ _ _]; simpl; rewrite Er; simpl;
        (split; [by rewrite <- !app_assoc|]); (split; [done|]).
      * eexists _, _. split_and!; [done | by apply Hcall | done..].
      * split; [done|]. right. eexists. split; [done | by apply Hcall].
  - unfold _try_register_other_plugin.
    destruct (bind_keywords _ _ kwargs) as [e|].
    + intros [= <- <-]. eexists [LogInfo _].
      split; [done|]. split; [done|]. split; [done|]. by left.
    + destruct (import_module plugin) as [module|e] eqn:Ei.
      * unfold spf_register_plugin. simpl.
        destruct (register_plugin module args kwargs (host s))
          as [[[p reg]|e] h'] eqn:Er; intros [= <- <-];
          eexists [LogInfo _; CallRegister _ _ _ _]; simpl; rewrite Er; simpl;
          (split; [by rewrite <- !app_assoc|]); (split; [done|]).
        -- eexists _, _. split_and!; [done | by apply Hcall | done..].
        -- split; [done|]. right. eexists. split; [done | by apply Hcall].
      * intros Hrun. eexists [LogInfo _].
        destruct e; injection Hrun as <- <-;
          (split; [done|]); (split; [done|]); (split; [done|]); by left.
Qed.


Lemma by_plugin_name_cons (a : assoc) (l : list assoc) R :
  by_plugin_name (a :: l) ∪ R
  = by_plugin_name l ∪ <[plugin_name (snd a) := a]> R.
Proof.
  unfold by_plugin_name. rewrite fmap_cons, reverse_cons, list_to_map_app.
  simpl. rewrite insert_empty, <- (assoc_L (∪)).
  by rewrite <- insert_union_singleton_l.
Qed.

Lemma by_plugin_name_dom (l : list assoc) :
  dom (by_plugin_name l)
  =@{gset string} list_to_set ((fun a : assoc => plugin_name (snd a)) <$> l).
Proof.
  unfold by_plugin_name. rewrite dom_list_to_map_L.
  apply set_eq. intros k.
  rewrite !elem_of_list_to_set, !list_elem_of_fmap. split.
  - intros ([k' a] & -> & Hin). apply elem_of_reverse, list_elem_of_fmap in Hin
      as (a' & [= -> ->] & Hin). by exists a'.
  - intros (a & -> & Hin). exists (plugin_name (snd a), a). split; [done|].
    apply elem_of_reverse, list_elem_of_fmap. by exists a.
Qed.

Lemma by_plugin_name_lookup (l : list assoc) k a :
  by_plugin_name l !! k = Some a -> a ∈ l /\ plugin_name (snd a) = k.
Proof.
  unfold by_plugin_name. intros H. apply elem_of_list_to_map_2 in H.
  apply elem_of_reverse, list_elem_of_fmap in H as (a' & [= -> ->] & Hin). done.
Qed.

Lemma by_plugin_name_last (l1 l2 : list assoc) a :
  (forall a', a' ∈ l2 -> plugin_name (snd a') <> plugin_name (snd a)) ->
  by_plugin_name (l1 ++ a :: l2) !! plugin_name (snd a) = Some a.
Proof.
  intros Hlast. unfold by_plugin_name.
  rewrite fmap_app, fmap_cons, reverse_app, reverse_cons, <- (assoc_L (++)).
  rewrite list_to_map_app. apply lookup_union_Some_raw. right. split.
  - apply not_elem_of_list_to_map_1. rewrite list_elem_of_fmap.
    intros ([k a'] & Hk & Hin). simpl in Hk.
    apply elem_of_reverse, list_elem_of_fmap in Hin as (a'' & [= -> ->] & Hin).
    by apply (Hlast a'').
  - simpl. by rewrite lookup_insert_eq.
Qed.

Lemma by_plugin_name_size (l : list assoc) :
  NoDup ((fun a : assoc => plugin_name (snd a)) <$> l) ->
  size (by_plugin_name l) = List.length l.
Proof.
  intros Hnd. unfold by_plugin_name. rewrite map_size_list_to_map.
  - by rewrite length_reverse, length_fmap.
  - rewrite fmap_reverse, <- list_fmap_compose. by rewrite reverse_Permutation.
Qed.

(** What a run of the registration loop that returns did. *)
Lemma register_entries_trace adv R entries s R' s' :
  register_entries adv R entries s = (Return R', s') ->
  exists evs,
    s' = Spf (replay evs (host s)) (journal s ++ evs) /\
    faithful (host s) evs /\
    Forall2 (is_call_of adv) entries (registrations evs) /\
    List.length (returned evs) = List.length entries /\
    R' = by_plugin_name (returned evs) ∪ R.
Proof.
  revert R s. induction entries as [|entry entries IH]; intros R s.
  - intros [= <- <-]. exists []. simpl. rewrite app_nil_r.
    split_and!; [by destruct s | done | constructor | done |].
    unfold by_plugin_name. simpl. by rewrite (left_id_L ∅ (∪)).
  - simpl. unfold bind.
    destruct (register_entry adv R entry s) as [[R1|e] s1] eqn:E1; [|done].
    apply register_entry_trace in E1
      as (evs1 & -> & Hf1 & ev & a & Hr & Hc & Hret & ->).
    intros Hrest. apply IH in Hrest as (evs2 & -> & Hf2 & HF & Hlen & ->).
    simpl in *. exists (evs1 ++ evs2).
    rewrite replay_app, registrations_app, returned_app, Hr, Hret.
    split_and!.
    + by rewrite (assoc_L (++)).
    + by apply faithful_app.
    + by constructor.
    + simpl. by rewrite Hlen.
    + simpl. by rewrite by_plugin_name_cons.
Qed.


Lemma register_plugins_returns eps config s R s' :
  _register_plugins eps import_module getattr register_plugin config s
  = (Return R, s') ->
  exists adv s0,
    _find_advertised_plugins eps import_module getattr s = (Return adv, s0) /\
    register_entries adv ∅ config s0 = (Return R, s').
Proof.
  unfold _register_plugins, bind.
  destruct (_find_advertised_plugins eps import_module getattr s)
    as [[adv|e] s0]; [|done].
  intros H. by exists adv, s0.
Qed.

(** X14.  A reference that neither is advertised nor imports: the entry raises
    the [RuntimeError] that names it, provided its named arguments do not
    repeat a parameter of [_try_register_other_plugin]. *)
Lemma unresolved_reference_raises adv R plugin options m s :
  adv !! casefold plugin = None ->
  import_module plugin = Raise (ImportError m) ->
  bind_keywords "_try_register_other_plugin" ["spf"; "app"; "plugin_name"]
    (snd (entry_arguments options)) = None ->
  register_entry adv R (plugin, options) s
  = (Raise (RuntimeError ("Do not know how to register plugin: " +:+ plugin)),
     logged [LogInfo ("Loading plugin: " +:+ plugin +:+ "...")] s).
Proof.
  intros Hmiss Himp Hkw.
  enter_entry.
  destruct (entry_arguments options) as [args kwargs]. simpl in Hkw.
  rewrite Hmiss. unfold _try_register_other_plugin. by rewrite Hkw, Himp.
Qed.

(** X15.  A reference that is not advertised and imports: the module is passed to
    the callback with the parsed arguments, under the same proviso. *)
Lemma imported_reference_registers adv R plugin options module s :
  adv !! casefold plugin = None ->
  import_module plugin = Return module ->
  bind_keywords "_try_register_other_plugin" ["spf"; "app"; "plugin_name"]
    (snd (entry_arguments options)) = None ->
  let args := fst (entry_arguments options) in
  let kwargs := snd (entry_arguments options) in
  let outcome := fst (register_plugin module args kwargs (host s)) in
  register_entry adv R (plugin, options) s
  = (match outcome with
     | Return a => Return (<[plugin_name (snd a) := a]> R)
     | Raise e => Raise e
     end,
     Spf (snd (register_plugin module args kwargs (host s)))
         (journal s ++ [LogInfo ("Loading plugin: " +:+ plugin +:+ "...");
                        CallRegister module args kwargs outcome])).
Proof.
  intros Hmiss Himp Hkw.
  enter_entry.
  destruct (entry_arguments options) as [args kwargs]. simpl in *.
  rewrite Hmiss. unfold _try_register_other_plugin, spf_register_plugin.
  rewrite Hkw, Himp. simpl.
  destruct (register_plugin module args kwargs (host s)) as [[[p reg]|e] h'];
    simpl; by rewrite <- app_assoc.
Qed.


(** C9.  A pass that returns has made one call of the callback for every
    entry, each of which returned a pair; its result holds these pairs under
    the [plugin_name] of their records and nothing else: the keys are the
    names the records report, a key maps to the last pair returned with that
    name, and with pairwise different names there is one key for every
    entry.  The reference written in the configuration is not a key. *)
Theorem result_keyed_by_canonical_name eps config s R s' :
  _register_plugins eps import_module getattr register_plugin config s
  = (Return R, s') ->
  exists adv s0 evs,
    _find_advertised_plugins eps import_module getattr s = (Return adv, s0) /\
    journal s' = journal s0 ++ evs /\
    faithful (host s0) evs /\
    Forall2 (is_call_of adv) config (registrations evs) /\
    List.length (returned evs) = List.length config /\
    R = by_plugin_name (returned evs) /\
    dom R =@{gset string}
      list_to_set ((fun a : assoc => plugin_name (snd a)) <$> returned evs) /\
    (forall k a, R !! k = Some a -> a ∈ returned evs /\ plugin_name (snd a) = k) /\
    (forall l1 a l2, returned evs = l1 ++ a :: l2 ->
       (forall a', a' ∈ l2 -> plugin_name (snd a') <> plugin_name (snd a)) ->
       R !! plugin_name (snd a) = Some a) /\
    (NoDup ((fun a : assoc => plugin_name (snd a)) <$> returned evs) ->
     size R = List.length config).
Proof.
  intros Hrun. apply register_plugins_returns in Hrun as (adv & s0 & Hd & Hrun).
  apply register_entries_trace in Hrun as (evs & -> & Hf & HF & Hlen & ->).
  rewrite (right_id_L ∅ (∪)).
  exists adv, s0, evs. split_and!; try done.
  - apply by_plugin_name_dom.
  - apply by_plugin_name_lookup.
  - intros l1 a l2 -> Hlast. by apply by_plugin_name_last.
  - intros Hnd. by rewrite by_plugin_name_size.
Qed.

(** C8, amended.  On a hit, when no named argument repeats a parameter of
    [_register_advertised_plugin], the callback is called once, with the
    positional and named arguments parsed from the entry, on the
    [instance] of the dictionary when that key is present and its value is
    true in Python's sense, and on the [module] otherwise. *)
Theorem advertised_plugin_object adv R plugin options d s :
  adv !! casefold plugin = Some d ->
  bind_keywords "_register_advertised_plugin" ["spf"; "app"; "plugin_def"]
    (snd (entry_arguments options)) = None ->
  let args := fst (entry_arguments options) in
  let kwargs := snd (entry_arguments options) in
  let p := match pd_instance d with
           | Some inst => if truthy inst then inst else pd_module d
           | None => pd_module d
           end in
  let outcome := fst (register_plugin p args kwargs (host s)) in
  register_entry adv R (plugin, options) s
  = (match outcome with
     | Return a => Return (<[plugin_name (snd a) := a]> R)
     | Raise e => Raise e
     end,
     Spf (snd (register_plugin p args kwargs (host s)))
         (journal s ++ [LogInfo ("Loading plugin: " +:+ plugin +:+ "...");
                        LogInfo ("Found advertised plugin " +:+ pd_name d +:+ ".");
                        CallRegister p args kwargs outcome])).
Proof.
  intros Hhit Hkw.
  enter_entry.
  destruct (entry_arguments options) as [args kwargs]. simpl in *.
  rewrite Hhit. unfold _register_advertised_plugin. rewrite Hkw.
  unfold bind, spf_info, record, spf_register_plugin, plugin_object. simpl.
  destruct (register_plugin _ args kwargs (host s)) as [[[p reg]|e] h'];
    simpl; by rewrite <- !app_assoc.
Qed.

End RegistrationFacts.

(** ** The loader at work in the small world *)

Section DemoRuns.

Local Abbreviation run := (_register_plugins Demo.entry_points
  Demo.import_module Demo.getattr Demo.register_plugin).
Local Abbreviation advertised :=
  (discovered Demo.import_module Demo.getattr ∅ Demo.entry_points).
Local Abbreviation after_discovery :=
  (logged (reports Demo.import_module Demo.getattr Demo.entry_points)
     Demo.start).


(** C2 fails on the code: the reference [no.such.plugin] is not advertised
    and does not import, yet with the option text [plugin_name=x] the pass
    raises a [TypeError] about the argument [plugin_name], and the message
    does not name the reference. *)
Theorem unresolved_reference_type_error :
  advertised !! casefold "no.such.plugin" = None
  /\ Demo.import_module "no.such.plugin"
     = Raise (ImportError "No module named 'no.such.plugin'")
  /\ fst (run [("no.such.plugin", Some "plugin_name=x")] Demo.start)
     = Raise (TypeError
         "_try_register_other_plugin() got multiple values for argument 'plugin_name'")
  /\ fst (run [("no.such.plugin", Some "x")] Demo.start)
     = Raise (RuntimeError "Do not know how to register plugin: no.such.plugin").
Proof. split_and!; by vm_compute. Qed.

(** C8 as stated fails: the dictionary of [Gamma] has the key [instance],
    with the value [None], and the module is what the callback gets. *)
Lemma falsy_instance_counterexample :
  exists d,
    advertised !! casefold "gamma" = Some d
    /\ pd_instance d = Some VNone
    /\ pd_module d = VModule "pkg.gamma"
    /\ registrations (journal (snd (run [("gamma", None)] Demo.start)))
       = [CallRegister (VModule "pkg.gamma") [] ∅
            (Return (VModule "pkg.gamma",
                     Registration "pkg.gamma" (VInt 0)))].
Proof. eexists. split_and!; by vm_compute. Qed.

Lemma advertised_plugin_object_witness :
  registrations (journal (snd (register_entry Demo.import_module
     Demo.register_plugin advertised ∅ ("ALPHA", Some "a,b=1") after_discovery)))
  = [CallRegister (VObject "AlphaPlugin" true) [VStr "a"] (<["b" := VInt 1]> ∅)
       (Return (VObject "AlphaPlugin" true,
                Registration "AlphaPlugin" (VInt 1)))].
Proof.
  pose proof (advertised_plugin_object Demo.import_module Demo.register_plugin
                advertised ∅ "ALPHA" (Some "a,b=1")
                (PDict "Alpha" (VModule "pkg.alpha")
                   (Some (VObject "AlphaPlugin" true)))
                after_discovery) as H.
  cbv zeta in H. rewrite H.
  - vm_compute. reflexivity.
  - vm_compute. reflexivity.
  - vm_compute. reflexivity.
Defined.


Lemma result_keyed_by_canonical_name_witness :
  exists R s' evs,
    run [("ALPHA", Some "a,b=1"); ("mypkg.plugin", None)] Demo.start
    = (Return R, s')
    /\ List.length (returned evs) = 2%nat
    /\ R = by_plugin_name (returned evs)
    /\ dom R = {["AlphaPlugin"; "mypkg.plugin"]}
    /\ R !! "ALPHA" = None.
Proof.
  destruct (run [("ALPHA", Some "a,b=1"); ("mypkg.plugin", None)] Demo.start)
    as [[R|e] s'] eqn:Hrun; [|by vm_compute in Hrun].
  destruct (result_keyed_by_canonical_name Demo.import_module Demo.getattr
              Demo.register_plugin _ _ _ _ _ Hrun)
    as (adv & s0 & evs & _ & _ & _ & _ & Hlen & HR & _).
  exists R, s', evs. split; [reflexivity|].
  split; [exact Hlen|]. split; [exact HR|].
  vm_compute in Hrun. injection Hrun as <- <-.
  split; by vm_compute.
Defined.

End DemoRuns.

(** * Further properties *)

(** ** Splitting and joining *)

Section SplitFacts.

Implicit Types (c sep : ascii) (s a b : string).

Lemma split_pieces_app sep a b :
  split_pieces sep (a +:+ String sep b)
  = (fst (split_pieces sep a), snd (split_pieces sep a) ++ str_split sep b).
Proof.
  induction a as [|d a IH]; simpl.
  - rewrite Ascii.eqb_refl. unfold str_split.
    by destruct (split_pieces sep b).
  - rewrite IH. destruct (split_pieces sep a) as [h t]. simpl.
    by destruct (Ascii.eqb d sep).
Qed.

Lemma str_split_app sep a b :
  str_split sep (a +:+ String sep b) = str_split sep a ++ str_split sep b.
Proof.
  unfold str_split at 1 2. rewrite split_pieces_app.
  by destruct (split_pieces sep a).
Qed.

Lemma str_split_length sep s :
  List.length (str_split sep s) = S (count_char sep s).
Proof.
  unfold str_split. induction s as [|d s IH]; simpl; [done|].
  destruct (split_pieces sep s) as [h t].
  destruct (Ascii.eqb d sep); simpl in *; lia.
Qed.

Lemma str_split_no_sep sep s :
  Forall (fun part => str_contains sep part = false) (str_split sep s).
Proof.
  unfold str_split. induction s as [|d s IH]; simpl.
  - by repeat constructor.
  - destruct (split_pieces sep s) as [h t].
    apply Forall_cons in IH as [Hh Ht].
    destruct (Ascii.eqb d sep) eqn:E.
    + by repeat constructor.
    + constructor; [|done]. simpl. by rewrite E.
Qed.

Lemma str_split_whole sep s :
  str_contains sep s = false -> str_split sep s = [s].
Proof.
  unfold str_split. induction s as [|d s IH]; simpl; [done|].
  destruct (Ascii.eqb d sep); [done|]. intros H. specialize (IH H).
  destruct (split_pieces sep s) as [h t]. by injection IH as -> ->.
Qed.

Lemma str_join_split sep s : str_join sep (str_split sep s) = s.
Proof.
  unfold str_split. induction s as [|d s IH]; simpl; [done|].
  destruct (split_pieces sep s) as [h t].
  destruct (Ascii.eqb_spec d sep) as [->|Hne].
  - simpl in *. by rewrite IH.
  - destruct t as [|p t]; simpl in *; by rewrite <- IH.
Qed.

Lemma str_contains_count c s :
  str_contains c s = false <-> count_char c s = O.
Proof.
  induction s as [|d s IH]; simpl; [done|].
  destruct (Ascii.eqb d c); [done | apply IH].
Qed.

(** X1.  The parts of [s.split(sep)]: one more than the separators in [s], none
    of them holds a separator, and joined by the separator they are [s]. *)
Theorem split_parts_partition sep s :
  List.length (str_split sep s) = S (count_char sep s)
  /\ Forall (fun part => str_contains sep part = false) (str_split sep s)
  /\ str_join sep (str_split sep s) = s.
Proof.
  split_and!;
    [apply str_split_length | apply str_split_no_sep | apply str_join_split].
Qed.

End SplitFacts.

(** ** More on option strings *)

Section OptionMoreFacts.

Implicit Types (part val : string) (args : list value)
  (kwargs : gmap string value) (parts : list string).

Lemma coerce_shape val :
  coerce val = VBool true /\ val = "True"
  \/ coerce val = VBool false /\ val = "False"
  \/ coerce val = VNone /\ val = "None"
  \/ (val <> "True" /\ val <> "False" /\ val <> "None") /\
     ((exists f, coerce val = VFloat f /\ str_contains "." val = true /\
                 py_float val = Some f)
      \/ (exists i, coerce val = VInt i /\ str_contains "." val = false /\
                    py_int val = Some i)
      \/ coerce val = VStr val).
Proof.
  unfold coerce.
  destruct (String.eqb_spec val "True") as [->|H1]; [by left|].
  destruct (String.eqb_spec val "False") as [->|H2]; [by right; left|].
  destruct (String.eqb_spec val "None") as [->|H3]; [by right; right; left|].
  right. right. right. split; [done|].
  destruct (str_contains "." val).
  - destruct (py_float val) as [f|]; [left; by exists f | by right; right].
  - destruct (py_int val) as [i|]; [right; left; by exists i | by right; right].
Qed.

(** X5.  Which texts give which scalar.  A boolean comes from [True] or [False]
    only and null from [None] only; a float comes only from a text with a
    dot and an integer only from a text without one; a string is always the
    text itself; nothing else is ever produced. *)
Theorem coerce_inversion val :
  (forall b, coerce val = VBool b <->
             (val = "True" /\ b = true) \/ (val = "False" /\ b = false))
  /\ (coerce val = VNone <-> val = "None")
  /\ (forall f, coerce val = VFloat f ->
        str_contains "." val = true /\ py_float val = Some f)
  /\ (forall i, coerce val = VInt i ->
        str_contains "." val = false /\ py_int val = Some i)
  /\ (forall s, coerce val = VStr s -> s = val)
  /\ (forall name, coerce val <> VModule name)
  /\ (forall label truth, coerce val <> VObject label truth).
Proof.
  destruct (coerce_shape val)
    as [[E ->]|[[E ->]|[[E ->]|[(H1 & H2 & H3)
         [(f & E & Hd & Hf)|[(i & E & Hd & Hi)|E]]]]]];
    rewrite E; split_and!; try (intros; congruence);
    try (split; [intros; congruence | intros [[? ?]|[? ?]]; congruence]);
    try (split; intros; congruence).
  - intros b. split; [intros [= <-]; by left|].
    by intros [[_ ->]|[? _]].
  - intros b. split; [intros [= <-]; by right|].
    by intros [[? _]|[_ ->]].
Qed.

Lemma coerce_inversion_witness :
  ("True" = "True" /\ true = true) \/ ("True" = "False" /\ true = false).
Proof.
  apply (proj1 (coerce_inversion "True")). reflexivity.
Defined.

(** Every part lands in exactly one of the two results. *)
Lemma values_length parts :
  (List.length (positional_values parts) + List.length (named_values parts)
   = List.length parts)%nat.
Proof.
  unfold positional_values, named_values.
  induction parts as [|part parts IH]; csimpl; [done|].
  destruct (part_entry part) as [[k|] v]; csimpl; lia.
Qed.

Lemma list_to_map_size_le (l : list (string * value)) :
  (size (list_to_map l : gmap string value) <= List.length l)%nat.
Proof.
  induction l as [|[k v] l IH]; simpl; [by rewrite map_size_empty|].
  rewrite map_size_insert. destruct (list_to_map l !! k); simpl; lia.
Qed.

(** X2.  The parse never gives nothing: a text with [n] commas has [n + 1]
    parts, each of which adds one positional value or writes one name, so
    the two results together hold at least one and at most [n + 1]
    arguments. *)
Theorem transform_option_dict_counts options :
  (1 <= List.length (fst (_transform_option_dict options))
        + size (snd (_transform_option_dict options))
     <= S (count_char "," options))%nat
  /\ _transform_option_dict options <> ([], ∅).
Proof.
  rewrite transform_option_dict_spec. simpl.
  pose proof (values_length (str_split "," options)) as Hlen.
  rewrite str_split_length in Hlen.
  pose proof (list_to_map_size_le (reverse (named_values (str_split "," options))))
    as Hle.
  rewrite length_reverse in Hle.
  assert (1 <= List.length (positional_values (str_split "," options))
          + size (list_to_map (reverse (named_values (str_split "," options)))
                  : gmap string value))%nat as Hone.
  { destruct (named_values (str_split "," options)) as [|[k v] l] eqn:E.
    - simpl in Hlen. lia.
    - rewrite reverse_cons, list_to_map_app.
      assert (size (list_to_map (reverse l) ∪ list_to_map [(k, v)]
                    : gmap string value) <> 0%nat); [|lia].
      apply map_size_non_empty_iff. intros Hempty.
      apply (f_equal (fun m : gmap string value => m !! k)) in Hempty.
      rewrite lookup_empty in Hempty.
      apply lookup_union_None in Hempty as [_ Hk].
      simpl in Hk. by rewrite lookup_insert_eq in Hk. }
  split; [lia|].
  intros [= Ha Hk]. rewrite Ha, Hk, map_size_empty in Hone. simpl in Hone. lia.
Qed.

Lemma part_entry_named part k v :
  part_entry part = (Some k, v) ->
  k <> "" /\ str_contains "=" k = false /\
  exists val, v = coerce val /\ part = k +:+ String "=" val.
Proof.
  unfold part_entry.
  destruct (str_contains "=" part) eqn:Heq.
  - destruct (split_key_inv part Heq) as (k0 & v0 & -> & Hk0 & ->).
    simpl. destruct (String.eqb_spec k0 "") as [->|Hne]; [done|].
    intros [= <- <-]. split_and!; [done..|]. by exists v0.
  - by rewrite (split_key_unkeyed part Heq).
Qed.

(** X3.  The names of the result: every one is a text that is not empty and has
    neither a comma nor an equals sign, and its value is the scalar of the
    text after the first [=] of a part [name=text] of the option string. *)
Theorem named_arguments_well_formed options k v :
  snd (_transform_option_dict options) !! k = Some v ->
  k <> "" /\ str_contains "," k = false /\ str_contains "=" k = false /\
  exists val,
    v = coerce val /\ str_contains "," val = false /\
    k +:+ String "=" val ∈ str_split "," options.
Proof.
  rewrite transform_option_dict_spec. simpl. intros H.
  apply elem_of_list_to_map_2 in H. rewrite elem_of_reverse in H.
  unfold named_values in H. apply list_elem_of_omap in H as (part & Hin & Hpart).
  destruct (part_entry part) as [[k'|] v'] eqn:E; [|done].
  injection Hpart as -> ->.
  apply part_entry_named in E as (Hne & Hk & val & -> & ->).
  pose proof (str_split_no_sep "," options) as Hparts.
  rewrite Forall_forall in Hparts. specialize (Hparts _ Hin).
  rewrite str_contains_app in Hparts. simpl in Hparts.
  apply orb_false_iff in Hparts as [Hk1 Hv1].
  split_and!; [done..|]. by exists val.
Qed.

Lemma named_arguments_well_formed_witness :
  "b" <> "" /\ str_contains "," "b" = false /\ str_contains "=" "b" = false /\
  exists val,
    VInt 1 = coerce val /\ str_contains "," val = false /\
    "b" +:+ String "=" val ∈ str_split "," "a,b=1,c=True".
Proof.
  apply (named_arguments_well_formed "a,b=1,c=True" "b" (VInt 1)).
  vm_compute. reflexivity.
Defined.

(** X4.  The parse of [a,b] goes on from the parse of [a] with the parts of
    [b].  So a further part [name=text] writes the name, replacing what an
    earlier part gave it, and a further part without [=] comes last in the
    positional sequence. *)
Theorem transform_option_dict_append a :
  (forall b,
     _transform_option_dict (a +:+ String "," b)
     = fold_left option_step (str_split "," b) (_transform_option_dict a))
  /\ (forall k val,
        str_contains "," k = false -> str_contains "," val = false ->
        str_contains "=" k = false -> k <> "" ->
        _transform_option_dict (a +:+ String "," (k +:+ String "=" val))
        = (fst (_transform_option_dict a),
           <[k := coerce val]> (snd (_transform_option_dict a))))
  /\ (forall val,
        str_contains "," val = false -> str_contains "=" val = false ->
        _transform_option_dict (a +:+ String "," val)
        = (fst (_transform_option_dict a) ++ [coerce val],
           snd (_transform_option_dict a))).
Proof.
  assert (forall b,
     _transform_option_dict (a +:+ String "," b)
     = fold_left option_step (str_split "," b) (_transform_option_dict a))
    as Happ.
  { intros b. unfold _transform_option_dict.
    by rewrite str_split_app, fold_left_app. }
  split_and!; [done | |].
  - intros k val Hk Hv Hkeq Hne. rewrite Happ, str_split_whole.
    + simpl. destruct (_transform_option_dict a) as [args kwargs].
      by apply option_step_named.
    + rewrite str_contains_app. simpl. by rewrite Hk, Hv.
  - intros val Hv Hveq. rewrite Happ, str_split_whole by done.
    simpl. destruct (_transform_option_dict a) as [args kwargs].
    by apply option_step_positional.
Qed.

Lemma transform_option_dict_append_witness :
  _transform_option_dict "a,b=1,b=x"
  = (fst (_transform_option_dict "a,b=1"),
     <["b" := coerce "x"]> (snd (_transform_option_dict "a,b=1")))
  /\ _transform_option_dict "a,b=1,z"
     = (fst (_transform_option_dict "a,b=1") ++ [coerce "z"],
        snd (_transform_option_dict "a,b=1")).
Proof.
  destruct (transform_option_dict_append "a,b=1") as (_ & Hnamed & Hpos).
  split.
  - apply (Hnamed "b" "x"); [reflexivity | reflexivity | reflexivity |].
    discriminate.
  - apply (Hpos "z"); reflexivity.
Defined.

Lemma lstrip_no_space c r : is_space c = false -> lstrip (c :: r) = c :: r.
Proof. intros H. simpl. by rewrite H. Qed.

Lemma strip_signed_digits sign ds :
  is_space sign = false ->
  Forall (fun c => is_digit c = true) ds -> ds <> [] ->
  strip (sign :: ds) = sign :: ds.
Proof.
  intros Hsign Hds Hne. unfold strip. rewrite lstrip_no_space by done.
  assert (lstrip (rev (sign :: ds)) = rev (sign :: ds)) as ->.
  { simpl. destruct (rev ds) as [|c r] eqn:E.
    - apply (f_equal (@rev ascii)) in E. by rewrite rev_involutive in E.
    - assert (is_digit c = true) as Hc.
      { apply List.Forall_rev in Hds. rewrite E in Hds. by inversion Hds. }
      apply lstrip_no_space. by destruct (digit_facts c Hc). }
  apply rev_involutive.
Qed.

(** Beyond the bound [int] raises [ValueError], leading zeros counted, and
    the parse keeps the text. *)
Example py_int_digit_limit :
  let ones n := string_of_list_ascii (List.repeat "1"%char (Z.to_nat n)) in
  let zeros n := string_of_list_ascii (List.repeat "0"%char (Z.to_nat n)) in
  let accepted s := match py_int s with Some _ => true | None => false end in
  let kept s := match coerce s with VStr _ => true | _ => false end in
  (accepted (ones 4300), accepted (ones 4301), accepted (zeros 4301),
   accepted (String "-" (ones 4300)), kept (ones 4301))
  = (true, false, false, true, true).
Proof. vm_compute. reflexivity. Qed.

(** X6.  A text made of decimal digits, at most [int_max_str_digits] of
    them, with or without a sign before them, is read as the integer it
    writes. *)
Theorem coerce_signed_digits ds :
  Forall (fun c => is_digit c = true) ds -> ds <> [] ->
  Z.of_nat (List.length ds) <= int_max_str_digits ->
  coerce (string_of_list_ascii ds) = VInt (digits_value ds)
  /\ coerce (String "+" (string_of_list_ascii ds)) = VInt (digits_value ds)
  /\ coerce (String "-" (string_of_list_ascii ds)) = VInt (- digits_value ds).
Proof.
  intros Hds Hne Hlen.
  assert (str_contains "." (string_of_list_ascii ds) = false) as Hdot.
  { clear Hne Hlen. induction Hds as [|c ds Hc _ IH]; [done|]. simpl.
    by destruct (digit_facts c Hc) as (_ & _ & _ & _ & -> & _). }
  pose proof (proj2 (Z.ltb_ge _ _) Hlen) as Hbound.
  split_and!.
  - by apply coerce_digits.
  - unfold coerce. simpl. rewrite Hdot. unfold py_int. simpl.
    rewrite list_ascii_of_string_of_list_ascii.
    rewrite (strip_signed_digits "+" ds) by done. simpl.
    rewrite drop_underscores_digits, span_digits_digits by done.
    destruct ds; [done|]. by rewrite Hbound.
  - unfold coerce. simpl. rewrite Hdot. unfold py_int. simpl.
    rewrite list_ascii_of_string_of_list_ascii.
    rewrite (strip_signed_digits "-" ds) by done. simpl.
    rewrite drop_underscores_digits, span_digits_digits by done.
    destruct ds; [done|]. by rewrite Hbound.
Qed.

Lemma coerce_signed_digits_witness :
  coerce "42" = VInt 42 /\ coerce "+42" = VInt 42 /\ coerce "-42" = VInt (-42).
Proof.
  apply (coerce_signed_digits ["4"; "2"]%char).
  - repeat constructor.
  - discriminate.
  - vm_compute. discriminate.
Defined.

Local Abbreviation dots cs :=
  (List.length (List.filter (fun c => Ascii.eqb c ".") cs)).

Lemma dots_of_string s : dots (list_ascii_of_string s) = count_char "." s.
Proof.
  induction s as [|c s IH]; simpl; [done|].
  destruct (Ascii.eqb c "."); simpl; by rewrite IH.
Qed.

Lemma dots_app cs1 cs2 : dots (cs1 ++ cs2) = (dots cs1 + dots cs2)%nat.
Proof. by rewrite List.filter_app, List.length_app. Qed.

Lemma dots_rev cs : dots (rev cs) = dots cs.
Proof. by rewrite List.filter_rev, List.length_rev. Qed.

Lemma dots_lstrip cs : dots (lstrip cs) = dots cs.
Proof.
  induction cs as [|c cs IH]; simpl; [done|].
  destruct (is_space c) eqn:E; [|done]. rewrite IH.
  destruct (Ascii.eqb_spec c ".") as [->|]; [done|done].
Qed.

Lemma dots_strip cs : dots (strip cs) = dots cs.
Proof. unfold strip. by rewrite dots_rev, dots_lstrip, dots_rev, dots_lstrip. Qed.

Lemma dots_drop_underscores prev cs cs' :
  drop_underscores prev cs = Some cs' -> dots cs' = dots cs.
Proof.
  revert prev cs'. induction cs as [|c cs IH]; intros prev cs'; simpl.
  - by intros [= <-].
  - destruct (Ascii.eqb_spec c "_") as [->|Hne].
    + destruct prev as [p|]; [|done]. destruct cs as [|n cs]; [done|].
      destruct (is_digit p && is_digit n); [|done]. apply IH.
    + destruct (drop_underscores (Some c) cs) as [r|] eqn:E; [|done].
      intros [= <-]. specialize (IH _ _ E). simpl.
      destruct (Ascii.eqb c "."); simpl; lia.
Qed.

Lemma dots_take_sign cs : dots (snd (take_sign cs)) = dots cs.
Proof.
  destruct cs as [|c cs]; [done|]. unfold take_sign.
  destruct (Ascii.eqb_spec c "-") as [->|]; [done|].
  by destruct (Ascii.eqb_spec c "+") as [->|].
Qed.

Lemma dots_span_digits cs :
  dots (snd (span_digits cs)) = dots cs.
Proof.
  induction cs as [|c cs IH]; simpl; [done|].
  destruct (is_digit c) eqn:Hc; [|done].
  destruct (span_digits cs) as [ds rest]. simpl in *. rewrite IH.
  by destruct (digit_facts c Hc) as (_ & _ & _ & _ & -> & _).
Qed.

Lemma dots_take_exponent cs : dots (snd (take_exponent cs)) = dots cs.
Proof.
  destruct cs as [|c cs]; [done|]. unfold take_exponent.
  destruct (Ascii.eqb c "e" || Ascii.eqb c "E") eqn:E; [|done].
  destruct (take_sign cs) as [eneg r1] eqn:Es.
  pose proof (dots_take_sign cs) as Hs. rewrite Es in Hs. simpl in Hs.
  pose proof (dots_span_digits r1) as Hd.
  destruct (span_digits r1) as [[|d ds] rest]; [done|]. simpl in *.
  rewrite Hd, Hs.
  apply orb_true_iff in E as [->%Ascii.eqb_eq | ->%Ascii.eqb_eq]; done.
Qed.

Lemma dots_lower_chars cs : count_char "." (lower_chars cs) = dots cs.
Proof.
  unfold lower_chars. induction cs as [|c cs IH]; simpl; [done|].
  rewrite IH. by destruct c as [[] [] [] [] [] [] [] []].
Qed.

(** [float] refuses a text with two dots or more. *)
Lemma py_float_two_dots val :
  (2 <= count_char "." val)%nat -> py_float val = None.
Proof.
  intros Hdots. unfold py_float.
  destruct (drop_underscores None (strip (list_ascii_of_string val)))
    as [cs|] eqn:Ecs; [|done].
  apply dots_drop_underscores in Ecs.
  rewrite dots_strip, dots_of_string in Ecs.
  pose proof (dots_take_sign cs) as Hsign.
  destruct (take_sign cs) as [neg body]. simpl in Hsign.
  pose proof (dots_span_digits body) as Hip.
  destruct (span_digits body) as [ip r1]. simpl in Hip.
  assert (exists fp r2,
            match r1 with
            | c :: r => if Ascii.eqb c "." then span_digits r else ([], r1)
            | [] => ([], [])
            end = (fp, r2) /\ (1 <= dots r2)%nat) as (fp & r2 & -> & Hr2).
  { destruct r1 as [|c r]; [simpl in Hip; lia|].
    destruct (Ascii.eqb c ".") eqn:Ec.
    - pose proof (dots_span_digits r) as Hfp.
      destruct (span_digits r) as [fp r2]. simpl in Hfp.
      exists fp, r2. split; [done|]. simpl in Hip. rewrite Ec in Hip.
      simpl in Hip. lia.
    - exists [], (c :: r). split; [done|]. lia. }
  destruct (ip ++ fp) as [|d ds].
  - pose proof (dots_lower_chars body) as Hw.
    destruct (String.eqb_spec (lower_chars body) "inf") as [E|_];
      [rewrite E in Hw; simpl in Hw; lia|].
    destruct (String.eqb_spec (lower_chars body) "infinity") as [E|_];
      [rewrite E in Hw; simpl in Hw; lia|].
    destruct (String.eqb_spec (lower_chars body) "nan") as [E|_];
      [rewrite E in Hw; simpl in Hw; lia|].
    done.
  - pose proof (dots_take_exponent r2) as Hex.
    destruct (take_exponent r2) as [ex [|c rest]]; [simpl in Hex; lia | done].
Qed.

(** X7.  A text with two dots or more, such as a dotted path, an address or a
    version, stays the string it is. *)
Theorem coerce_dotted_text val :
  (2 <= count_char "." val)%nat -> coerce val = VStr val.
Proof.
  intros Hdots. unfold coerce.
  destruct (String.eqb_spec val "True") as [->|_]; [simpl in Hdots; lia|].
  destruct (String.eqb_spec val "False") as [->|_]; [simpl in Hdots; lia|].
  destruct (String.eqb_spec val "None") as [->|_]; [simpl in Hdots; lia|].
  destruct (str_contains "." val) eqn:E.
  - by rewrite py_float_two_dots.
  - apply str_contains_count in E. lia.
Qed.

Lemma coerce_dotted_text_witness :
  coerce "mypkg.sub.plugin" = VStr "mypkg.sub.plugin".
Proof.
  apply (coerce_dotted_text "mypkg.sub.plugin"). vm_compute. lia.
Defined.

End OptionMoreFacts.

(** ** More on discovery *)

Section DiscoveryMoreFacts.

Context {Host : Type}.
Variable import_module : string -> result value.
Variable getattr : value -> string -> result value.
Variable register_plugin :
  value -> list value -> gmap string value -> Host -> result assoc * Host.

Local Abbreviation fate_of := (fate_of import_module getattr).
Local Abbreviation benign := (benign import_module getattr).
Local Abbreviation discovered := (discovered import_module getattr).
Local Abbreviation discover_all := (@discover_all Host import_module getattr).
Local Abbreviation find_plugins eps :=
  (@_find_advertised_plugins Host eps import_module getattr).

Implicit Types (plugins M : gmap string p_dict) (ep : entrypoint)
  (eps : list entrypoint) (s : @spf Host).

Lemma fate_discovered_inv ep d :
  fate_of ep = Discovered d ->
  pd_name d = ep_name ep /\
  import_module (module_name ep) = Return (pd_module d) /\
  match pd_instance d with
  | Some inst =>
      exists attr, attr_given ep = Some attr /\
                   getattr (pd_module d) attr = Return inst
  | None => attr_given ep = None
  end.
Proof.
  unfold Observe.fate_of.
  destruct (import_module (module_name ep)) as [module|[]]; try done.
  destruct (attr_given ep) as [attr|]; [|by intros [= <-]].
  destruct (getattr module attr) as [inst|[]] eqn:E; try done.
  intros [= <-]. simpl. split_and!; [done..|]. by exists attr.
Qed.

Lemma discovered_key_name eps k d :
  discovered ∅ eps !! k = Some d -> casefold (pd_name d) = casefold k.
Proof.
  intros Hk.
  apply discovered_lookup_inv in Hk as [Hk|(ep & _ & Hd & Hname)];
    [by rewrite lookup_empty in Hk|].
  rewrite (fate_name import_module getattr ep d Hd).
  destruct Hname as [->| <-]; [done | by rewrite casefold_idemp].
Qed.

(** X8.  What a key of the mapping holds: a dictionary whose name is the key up
    to case, made for an entry point of that name from the module its
    import returned; its [instance] is the value of the first declared
    attribute of that module, and is absent when none is declared. *)
Theorem discovery_mapping_sound eps s M s' k d :
  find_plugins eps s = (Return M, s') ->
  M !! k = Some d ->
  casefold (pd_name d) = casefold k
  /\ (pd_name d = k \/ casefold (pd_name d) = k)
  /\ exists ep,
       ep ∈ eps /\ ep_name ep = pd_name d /\
       import_module (module_name ep) = Return (pd_module d) /\
       match pd_instance d with
       | Some inst =>
           exists attr, attr_given ep = Some attr /\
                        getattr (pd_module d) attr = Return inst
       | None => attr_given ep = None
       end.
Proof.
  unfold _find_advertised_plugins. intros Hrun Hk.
  apply discover_all_returns in Hrun as [-> _].
  apply discovered_lookup_inv in Hk as [Hk|(ep & Hin & Hd & Hname)];
    [by rewrite lookup_empty in Hk|].
  destruct (fate_discovered_inv ep d Hd) as (Hn & Himp & Hinst).
  rewrite Hn. split_and!.
  - destruct Hname as [->| <-]; [done | by rewrite casefold_idemp].
  - done.
  - by exists ep.
Qed.

Lemma discovered_lookup_persist plugins eps k :
  is_Some (plugins !! k) -> is_Some (discovered plugins eps !! k).
Proof.
  revert plugins. induction eps as [|ep eps IH]; intros plugins H; [done|].
  rewrite discovered_cons. apply IH.
  destruct (fate_of ep); [|done..].
  unfold add_plugin. rewrite !lookup_insert_is_Some'. auto.
Qed.

(** X9.  A discovered entry is found by its name written in any casing, as the
    registration pass looks references up: the case-folded reference is a
    key, and it holds a dictionary of that name up to case. *)
Theorem discovery_reached_in_any_casing eps s M s' ep d reference :
  find_plugins eps s = (Return M, s') ->
  ep ∈ eps -> fate_of ep = Discovered d ->
  casefold reference = casefold (ep_name ep) ->
  is_Some (M !! ep_name ep)
  /\ exists d', M !! casefold reference = Some d' /\
                casefold (pd_name d') = casefold reference.
Proof.
  intros Hrun Hin Hd Href.
  pose proof Hrun as Hrun'. unfold _find_advertised_plugins in Hrun'.
  apply discover_all_returns in Hrun' as [HM _].
  apply list_elem_of_split in Hin as (eps1 & eps2 & ->).
  assert (is_Some (M !! ep_name ep) /\ is_Some (M !! casefold (ep_name ep)))
    as [H1 H2].
  { rewrite HM, discovered_app, discovered_cons, Hd.
    pose proof (fate_name import_module getattr ep d Hd) as Hn.
    split; apply discovered_lookup_persist; rewrite <- Hn.
    - by rewrite add_plugin_lookup_name.
    - by rewrite add_plugin_lookup_fold. }
  split; [done|]. rewrite Href. destruct H2 as [d' Hd'].
  exists d'. split; [done|]. rewrite HM in Hd'.
  by rewrite (discovered_key_name _ _ _ Hd'), casefold_idemp.
Qed.

Lemma discover_all_only_reports plugins eps s r s' :
  discover_all plugins eps s = (r, s') ->
  host s' = host s
  /\ exists msgs,
       journal s' = journal s ++ (LogError <$> msgs)
       /\ (List.length msgs <= List.length eps)%nat
       /\ registrations (journal s') = registrations (journal s).
Proof.
  revert plugins s. induction eps as [|ep eps IH]; intros plugins s.
  - intros [= <- <-]. split; [done|]. exists []. simpl.
    by rewrite app_nil_r.
  - simpl. unfold bind. rewrite discover_fate.
    destruct (fate_of ep) as [d|msg|e].
    + intros H. apply IH in H as (Hh & msgs & Hj & Hlen & Hreg).
      split; [done|]. exists msgs. split_and!; [done | lia | done].
    + intros H. apply IH in H as (Hh & msgs & Hj & Hlen & Hreg).
      split; [done|]. exists (msg :: msgs). simpl in *.
      split_and!; [by rewrite Hj, <- app_assoc | lia |].
      rewrite Hreg. unfold registrations. rewrite List.filter_app. simpl.
      by rewrite app_nil_r.
    + intros [= <- <-]. split; [done|]. exists []. simpl.
      rewrite app_nil_r. split_and!; [done | lia | done].
Qed.

(** X10.  Discovery whatever its outcome: it leaves the host as it was and
    adds to the journal nothing but error reports, at most one for each
    entry point; it never calls the callback. *)
Theorem discovery_only_reports eps s r s' :
  find_plugins eps s = (r, s') ->
  host s' = host s
  /\ exists msgs,
       journal s' = journal s ++ (LogError <$> msgs)
       /\ (List.length msgs <= List.length eps)%nat
       /\ registrations (journal s') = registrations (journal s).
Proof. apply discover_all_only_reports. Qed.

(** X11.  An entry point whose import or attribute lookup raises anything but
    [ImportError] or [AttributeError] stops the whole pass, whatever the
    configuration says, even an empty one: the exception leaves
    [_register_plugins] after the reports for the entry points before it,
    with the host untouched and no entry looked at. *)
Theorem discovery_abort_stops_registration eps1 ep eps2 e config s :
  Forall benign eps1 -> fate_of ep = Aborts e ->
  _register_plugins (eps1 ++ ep :: eps2) import_module getattr
    register_plugin config s
  = (Raise e, logged (reports import_module getattr eps1) s).
Proof.
  intros Hb Hep. unfold _register_plugins, _find_advertised_plugins, bind.
  rewrite discover_all_app. unfold bind.
  rewrite (discover_all_total _ _ _ _ _ Hb). simpl. unfold bind.
  by rewrite discover_fate, Hep.
Qed.

End DiscoveryMoreFacts.

Lemma discovery_mapping_sound_witness :
  casefold "Alpha" = casefold "alpha"
  /\ ("Alpha" = "alpha" \/ casefold "Alpha" = "alpha")
  /\ exists ep,
       ep ∈ Demo.entry_points /\ ep_name ep = "Alpha" /\
       Demo.import_module (module_name ep) = Return (VModule "pkg.alpha") /\
       exists attr, attr_given ep = Some attr /\
         Demo.getattr (VModule "pkg.alpha") attr
         = Return (VObject "AlphaPlugin" true).
Proof.
  destruct (_find_advertised_plugins Demo.entry_points Demo.import_module
              Demo.getattr Demo.start) as [[M|e] s'] eqn:Hrun;
    [|by vm_compute in Hrun].
  apply (discovery_mapping_sound Demo.import_module Demo.getattr
           Demo.entry_points Demo.start M s' "alpha"
           (PDict "Alpha" (VModule "pkg.alpha")
              (Some (VObject "AlphaPlugin" true))) Hrun).
  vm_compute in Hrun. injection Hrun as <- _. reflexivity.
Defined.

Lemma discovery_reached_in_any_casing_witness :
  exists M s',
    _find_advertised_plugins Demo.colliding_entry_points Demo.import_module
      Demo.getattr Demo.start = (Return M, s')
    /\ is_Some (M !! "foo")
    /\ exists d', M !! casefold "FOO" = Some d' /\
                  casefold (pd_name d') = casefold "FOO".
Proof.
  destruct (_find_advertised_plugins Demo.colliding_entry_points
              Demo.import_module Demo.getattr Demo.start)
    as [[M|e] s'] eqn:Hrun; [|by vm_compute in Hrun].
  exists M, s'. split; [reflexivity|].
  apply (discovery_reached_in_any_casing Demo.import_module Demo.getattr
           Demo.colliding_entry_points Demo.start M s'
           (EntryPoint "foo" "pkg.alpha" [])
           (PDict "foo" (VModule "pkg.alpha") None) "FOO" Hrun).
  - left.
  - reflexivity.
  - reflexivity.
Defined.

Lemma discovery_only_reports_witness :
  exists s',
    snd (_find_advertised_plugins Demo.entry_points Demo.import_module
           Demo.getattr Demo.start) = s'
    /\ host s' = host Demo.start
    /\ exists msgs,
         journal s' = journal Demo.start ++ (LogError <$> msgs)
         /\ (List.length msgs <= List.length Demo.entry_points)%nat
         /\ registrations (journal s') = registrations (journal Demo.start).
Proof.
  destruct (_find_advertised_plugins Demo.entry_points Demo.import_module
              Demo.getattr Demo.start) as [r s'] eqn:Hrun.
  exists s'. split; [reflexivity|].
  exact (discovery_only_reports Demo.import_module Demo.getattr
           Demo.entry_points Demo.start r s' Hrun).
Defined.

Lemma discovery_abort_stops_registration_witness :
  _register_plugins
    ([EntryPoint "Alpha" "pkg.alpha" ["instance"];
      EntryPoint "Broken" "pkg.broken" []]
     ++ EntryPoint "Bad" "pkg.bad" [] :: [EntryPoint "Gamma" "pkg.gamma" []])
    DemoFiles.import_module Demo.getattr Demo.register_plugin
    [("mypkg.plugin", None)] Demo.start
  = (Raise (OtherError "SyntaxError" "invalid syntax"),
     logged [LogError "Cannot import pkg.broken"] Demo.start).
Proof.
  apply (discovery_abort_stops_registration DemoFiles.import_module
           Demo.getattr Demo.register_plugin
           [EntryPoint "Alpha" "pkg.alpha" ["instance"];
            EntryPoint "Broken" "pkg.broken" []]
           (EntryPoint "Bad" "pkg.bad" []) [EntryPoint "Gamma" "pkg.gamma" []]
           (OtherError "SyntaxError" "invalid syntax")).
  - repeat constructor; intros e; by vm_compute.
  - reflexivity.
Defined.

(** ** More on registration *)

Section RegistrationMoreFacts.

Context {Host : Type}.
Variable register_plugin :
  value -> list value -> gmap string value -> Host -> result assoc * Host.

Implicit Types (adv : gmap string p_dict) (R : gmap string assoc)
  (s : @spf Host) (kwargs : gmap string value).

(** X12.  On a hit nothing but the case-folded reference and the options counts:
    written in another casing, and whether or not a module of that name can
    be imported, the entry gives the same outcome, the same call of the
    callback and the same host. *)
Theorem hit_depends_on_folded_reference
    (import1 import2 : string -> result value) adv R r1 r2 options d s :
  casefold r1 = casefold r2 ->
  adv !! casefold r1 = Some d ->
  fst (register_entry import1 register_plugin adv R (r1, options) s)
  = fst (register_entry import2 register_plugin adv R (r2, options) s)
  /\ host (snd (register_entry import1 register_plugin adv R (r1, options) s))
     = host (snd (register_entry import2 register_plugin adv R (r2, options) s))
  /\ registrations (journal (snd (register_entry import1 register_plugin
                                    adv R (r1, options) s)))
     = registrations (journal (snd (register_entry import2 register_plugin
                                      adv R (r2, options) s))).
Proof.
  intros Hfold Hhit. enter_entry.
  destruct (entry_arguments options) as [args kwargs].
  rewrite <- Hfold, Hhit. unfold _register_advertised_plugin.
  destruct (bind_keywords _ _ kwargs) as [e|]; simpl.
  - split_and!; [done | done |].
    unfold registrations. by rewrite !List.filter_app.
  - unfold bind, spf_info, record, spf_register_plugin. simpl.
    destruct (register_plugin (plugin_object d) args kwargs (host s))
      as [[[p reg]|e] h']; simpl; (split_and!; [done | done |]);
      unfold registrations; by rewrite !List.filter_app.
Qed.

Lemma bind_keywords_repeated fname params kwargs p :
  p ∈ params -> is_Some (kwargs !! p) ->
  exists msg, bind_keywords fname params kwargs = Some (TypeError msg).
Proof.
  intros Hin Hp. unfold bind_keywords.
  destruct (List.filter _ params) as [|q l] eqn:E; [|by eexists].
  assert (In p (List.filter
                  (fun p => bool_decide (is_Some (kwargs !! p))) params))
    as Hf.
  { apply List.filter_In. split; [by apply list_elem_of_In|].
    by apply bool_decide_eq_true. }
  by rewrite E in Hf.
Qed.

(** X13.  A named argument called [spf] or [app], or [plugin_def] on a hit, or
    [plugin_name] on a miss, makes the entry raise a [TypeError] as soon as
    its notice is logged: nothing is imported, the callback is not called
    and the host stays as it was. *)
Theorem reserved_name_raises (import_module : string -> result value)
    adv R plugin options p s :
  p = "spf" \/ p = "app"
  \/ (p = "plugin_def" /\ is_Some (adv !! casefold plugin))
  \/ (p = "plugin_name" /\ adv !! casefold plugin = None) ->
  is_Some (snd (entry_arguments options) !! p) ->
  exists msg,
    register_entry import_module register_plugin adv R (plugin, options) s
    = (Raise (TypeError msg),
       logged [LogInfo ("Loading plugin: " +:+ plugin +:+ "...")] s).
Proof.
  intros Hp Hkw. enter_entry.
  destruct (entry_arguments options) as [args kwargs]. simpl in Hkw.
  destruct (adv !! casefold plugin) as [d|] eqn:Hadv.
  - unfold _register_advertised_plugin.
    destruct (bind_keywords_repeated "_register_advertised_plugin"
                ["spf"; "app"; "plugin_def"] kwargs p) as [msg ->];
      [|done|by exists msg].
    destruct Hp as [->|[->|[[-> _]|[_ [=]]]]]; set_solver.
  - unfold _try_register_other_plugin.
    destruct (bind_keywords_repeated "_try_register_other_plugin"
                ["spf"; "app"; "plugin_name"] kwargs p) as [msg ->];
      [|done|by exists msg].
    destruct Hp as [->|[->|[[_ [? [=]]]|[-> _]]]]; set_solver.
Qed.

End RegistrationMoreFacts.

Lemma hit_depends_on_folded_reference_witness :
  fst (register_entry Demo.import_module Demo.register_plugin
         (discovered Demo.import_module Demo.getattr ∅ Demo.entry_points) ∅
         ("ALPHA", Some "a,b=1") Demo.start)
  = fst (register_entry DemoFiles.import_module Demo.register_plugin
           (discovered Demo.import_module Demo.getattr ∅ Demo.entry_points) ∅
           ("alpha", Some "a,b=1") Demo.start).
Proof.
  apply (hit_depends_on_folded_reference Demo.register_plugin
           Demo.import_module DemoFiles.import_module _ ∅ "ALPHA" "alpha"
           (Some "a,b=1")
           (PDict "Alpha" (VModule "pkg.alpha")
              (Some (VObject "AlphaPlugin" true))) Demo.start).
  - reflexivity.
  - vm_compute. reflexivity.
Defined.

Lemma reserved_name_raises_witness :
  exists msg,
    register_entry Demo.import_module Demo.register_plugin ∅ ∅
      ("mypkg.plugin", Some "debug=True,app=main") Demo.start
    = (Raise (TypeError msg),
       logged [LogInfo "Loading plugin: mypkg.plugin..."] Demo.start).
Proof.
  apply (reserved_name_raises Demo.register_plugin Demo.import_module ∅ ∅
           "mypkg.plugin" (Some "debug=True,app=main") "app" Demo.start).
  - right. left. reflexivity.
  - vm_compute. eexists. reflexivity.
Defined.

Lemma unresolved_reference_raises_witness :
  register_entry Demo.import_module Demo.register_plugin ∅ ∅
    ("no.such", Some "x,y=1") Demo.start
  = (Raise (RuntimeError "Do not know how to register plugin: no.such"),
     logged [LogInfo "Loading plugin: no.such..."] Demo.start).
Proof.
  apply (unresolved_reference_raises Demo.import_module Demo.register_plugin
           ∅ ∅ "no.such" (Some "x,y=1") "No module named 'no.such'"
           Demo.start).
  - reflexivity.
  - reflexivity.
  - vm_compute. reflexivity.
Defined.

Lemma imported_reference_registers_witness :
  registrations (journal (snd (register_entry Demo.import_module
     Demo.register_plugin ∅ ∅ ("mypkg.plugin", Some "opt1,key=val")
     Demo.start)))
  = [CallRegister (VModule "mypkg.plugin") [VStr "opt1"]
       (<["key" := VStr "val"]> ∅)
       (Return (VModule "mypkg.plugin",
                Registration "mypkg.plugin" (VInt 1)))].
Proof.
  pose proof (imported_reference_registers Demo.import_module
                Demo.register_plugin ∅ ∅ "mypkg.plugin"
                (Some "opt1,key=val") (VModule "mypkg.plugin") Demo.start) as H.
  cbv zeta in H. rewrite H.
  - vm_compute. reflexivity.
  - reflexivity.
  - reflexivity.
  - vm_compute. reflexivity.
Defined.

(** ** The configuration file *)

Section LoadFacts.

Context {Host : Type}.
Variable abspath : string -> string.
Variable isfile : string -> bool.
Variable parser_items :
  gmap string string -> string -> result (list (string * option string)).
Variable iter_entry_points : list entrypoint.
Variable import_module : string -> result value.
Variable getattr : value -> string -> result value.
Variable register_plugin :
  value -> list value -> gmap string value -> Host -> result assoc * Host.

Local Abbreviation load := (@load_config_file Host abspath isfile parser_items
  iter_entry_points import_module getattr register_plugin).
Local Abbreviation notice filename :=
  (LogInfo ("Loading spf config file " +:+ abspath filename +:+ ".")).

Implicit Types (filename : string) (s : @spf Host).

(** X16.  Failing early.  Without a regular file at the absolute path the load
    raises [FileNotFoundError] with the file name as it was given, and has
    done nothing; with a file whose [plugins] section cannot be read it
    raises what the parser raised, after the one notice that names the
    absolute path: no discovery, no report, no call of the callback. *)
Theorem load_config_file_fails_early filename s :
  (isfile (abspath filename) = false ->
   load filename s = (Raise (OtherError "FileNotFoundError" filename), s))
  /\ (forall e,
        isfile (abspath filename) = true ->
        parser_items ∅ (abspath filename) = Raise e ->
        load filename s = (Raise e, logged [notice filename] s)).
Proof.
  unfold load_config_file, _find_config_file. split.
  - by intros ->.
  - intros e -> Hitems. unfold bind, spf_info, record. simpl.
    unfold _get_config_defaults. by rewrite Hitems.
Qed.

(** X17.  A load that returns: the file exists and its [plugins] section was
    read; after the notice, discovery ran once, and then the callback was
    called once for every entry of the section, in the order of the
    section, and by nothing else was the host changed.  What is returned
    is nothing: the mapping of the registered plugins is not handed on. *)
Theorem load_config_file_registers_section filename s s' :
  load filename s = (Return tt, s') ->
  isfile (abspath filename) = true
  /\ exists config adv s0 evs,
       parser_items ∅ (abspath filename) = Return config
       /\ _find_advertised_plugins iter_entry_points import_module getattr
            (logged [notice filename] s) = (Return adv, s0)
       /\ s' = Spf (replay register_plugin evs (host s)) (journal s0 ++ evs)
       /\ faithful register_plugin (host s) evs
       /\ Forall2 (is_call_of import_module adv) config (registrations evs).
Proof.
  unfold load_config_file, _find_config_file.
  destruct (isfile (abspath filename)); [|done].
  unfold bind at 1, spf_info, record. simpl. unfold _get_config_defaults.
  destruct (parser_items ∅ (abspath filename)) as [config|e]; [|done].
  unfold bind at 1.
  destruct (_register_plugins _ _ _ _ config _) as [[R|e] s1] eqn:Hrun;
    [|done].
  intros [= <-]. split; [done|].
  apply register_plugins_returns in Hrun as (adv & s0 & Hd & Hrun).
  apply (register_entries_trace import_module getattr register_plugin)
    in Hrun as (evs & -> & Hf & HF & _).
  pose proof (discover_all_only_reports import_module getattr _ _ _ _ _ Hd)
    as [Hhost _].
  simpl in Hhost. rewrite Hhost in *.
  exists config, adv, s0, evs. by split_and!.
Qed.

End LoadFacts.

Lemma load_config_file_fails_early_witness :
  load_config_file DemoFiles.abspath DemoFiles.isfile DemoFiles.parser_items
    Demo.entry_points Demo.import_module Demo.getattr Demo.register_plugin
    "missing.ini" Demo.start
  = (Raise (OtherError "FileNotFoundError" "missing.ini"), Demo.start).
Proof.
  apply (load_config_file_fails_early DemoFiles.abspath DemoFiles.isfile
           DemoFiles.parser_items Demo.entry_points Demo.import_module
           Demo.getattr Demo.register_plugin "missing.ini" Demo.start).
  reflexivity.
Defined.

Lemma load_config_file_registers_section_witness :
  exists s',
    load_config_file DemoFiles.abspath DemoFiles.isfile DemoFiles.parser_items
      Demo.entry_points Demo.import_module Demo.getattr Demo.register_plugin
      "spf.ini" Demo.start = (Return tt, s')
    /\ host s' = ["AlphaPlugin"; "mypkg.plugin"]
    /\ DemoFiles.isfile (DemoFiles.abspath "spf.ini") = true.
Proof.
  destruct (load_config_file DemoFiles.abspath DemoFiles.isfile
              DemoFiles.parser_items Demo.entry_points Demo.import_module
              Demo.getattr Demo.register_plugin "spf.ini" Demo.start)
    as [[[]|e] s'] eqn:Hrun; [|by vm_compute in Hrun].
  exists s'. split; [reflexivity|].
  destruct (load_config_file_registers_section _ _ _ _ _ _ _ _ _ _ Hrun)
    as [Hfile _].
  split; [|exact Hfile].
  vm_compute in Hrun. by injection Hrun as <-.
Defined.
